(** * Grade tracker: storage layer and weighted average

    A shallow embedding of [src/utils/storageUtils.ts]:
    [calculateAverage], [saveSubjectsToStorage], [getSubjectsFromStorage],
    [addGradeToSubject] and [deleteGradeFromSubject], with the browser's
    [localStorage], the [window] event bus and the cloud peer as explicit
    state.

    Modelling decisions, all local to this file:
    - a JavaScript number is an exact rational, [NaN] or a signed infinity:
      the rounding error of binary64 arithmetic is not modelled and the two
      zeros are one;
    - records follow the declared TypeScript types [Subject] and [Grade];
      an optional field is an [option];
    - a text held by [localStorage] is represented by what [JSON.parse]
      makes of it;
    - an [async] call that is not awaited is run to completion at the call;
    - [console.log] and [console.error] are not recorded. *)

From Stdlib Require Import QArith Qcanon Qround Qabs.
From stdpp Require Import base option list strings numbers.

Open Scope Qc_scope.

(** ** Numbers *)

Inductive number :=
| Fin (q : Qc)
| NaN
| PInf
| NInf.

#[global] Instance number_eq_dec : EqDecision number.
Proof. solve_decision. Defined.

Definition num (q : Q) : number := Fin (Q2Qc q).

Definition zero : number := num 0.
Definition one : number := num 1.
Definition two : number := num 2.

(** Sign of a number that is not [NaN]: [Lt] negative, [Eq] zero,
    [Gt] positive. *)
Definition sign (x : number) : comparison :=
  match x with
  | Fin q => q ?= 0
  | PInf => Gt
  | NInf => Lt
  | NaN => Eq
  end.

(** [x + y] *)
Definition add (x y : number) : number :=
  match x, y with
  | NaN, _ | _, NaN => NaN
  | Fin a, Fin b => Fin (a + b)
  | PInf, NInf | NInf, PInf => NaN
  | PInf, _ | _, PInf => PInf
  | NInf, _ | _, NInf => NInf
  end.

(** [x * y] *)
Definition mul (x y : number) : number :=
  match x, y with
  | NaN, _ | _, NaN => NaN
  | Fin a, Fin b => Fin (a * b)
  | _, _ =>
      match sign x, sign y with
      | Eq, _ | _, Eq => NaN
      | Gt, Gt | Lt, Lt => PInf
      | _, _ => NInf
      end
  end.

(** [x / y]; a zero divisor is the positive zero. *)
Definition div (x y : number) : number :=
  match x, y with
  | NaN, _ | _, NaN => NaN
  | Fin a, Fin b =>
      match b ?= 0 with
      | Eq => match a ?= 0 with Eq => NaN | Gt => PInf | Lt => NInf end
      | _ => Fin (a / b)
      end
  | Fin _, _ => zero
  | _, Fin b =>
      match sign x, b ?= 0 with
      | Gt, Lt | Lt, Eq | Lt, Gt => NInf
      | _, _ => PInf
      end
  | _, _ => NaN
  end.

(** ToBoolean on a number: [0] and [NaN] are falsy. *)
Definition truthy (x : number) : bool :=
  match x with
  | Fin q => negb (bool_decide (q = 0))
  | NaN => false
  | _ => true
  end.

(** Nearest multiple of 1/100, a tie going away from zero: the decimal
    that [toFixed(2)] prints. *)
Definition round2 (q : Qc) : Qc :=
  let n := Qfloor (Qabs q * 100 + (1 # 2))%Q in
  Q2Qc (match q ?= 0 with Lt => (- n # 100)%Q | _ => (n # 100)%Q end).

(** [Number.parseFloat(x.toFixed(2))] *)
Definition toFixed2 (x : number) : number :=
  match x with
  | Fin q => Fin (round2 q)
  | _ => x
  end.

(** ** Data model

    [weight] and [averageGrade] are the optional fields of the declared
    types, [None] for [undefined]; [grades] is always an array, so the
    guards [!grades] of the code are never taken. *)

Record Grade := mkGrade {
  value : number;
  type : string;
  weight : option number;
  date : string
}.

Record Subject := mkSubject {
  id : string;
  name : string;
  grades : list Grade;
  averageGrade : option number
}.

#[global] Instance Grade_eq_dec : EqDecision Grade.
Proof. solve_decision. Defined.

#[global] Instance Subject_eq_dec : EqDecision Subject.
Proof. solve_decision. Defined.

(** ** calculateAverage *)

Record Acc := mkAcc {
  weightedSum : number;
  totalWeight : number
}.

(** [w || d] on an optional number. *)
Definition orDefault (w : option number) (d : number) : number :=
  match w with
  | Some x => if truthy x then x else d
  | None => d
  end.

(** The callback of [grades.reduce]. *)
Definition reducer (acc : Acc) (grade : Grade) : Acc :=
  let weight := orDefault (weight grade) one in
  {| weightedSum := add (weightedSum acc) (mul (value grade) weight);
     totalWeight := add (totalWeight acc) weight |}.

Definition calculateAverage (grades : list Grade) : number :=
  match grades with
  | [] => zero
  | _ =>
      let r := fold_left reducer grades {| weightedSum := zero; totalWeight := zero |} in
      toFixed2 (div (weightedSum r) (totalWeight r))
  end.

(** *** The average as the specification words it

    [explicitWeight] is the weight "defaulting to 1.0 if a given Grade
    lacks an explicit weight"; [sigma f gs] is the sum of [f] over [gs]. *)

Definition explicitWeight (g : Grade) : number := default one (weight g).

Definition sigma (f : Grade → number) (gs : list Grade) : number :=
  foldr (λ g s, add (f g) s) zero gs.

Definition weightedMean (w : Grade → number) (gs : list Grade) : number :=
  match gs with
  | [] => zero
  | _ => toFixed2 (div (sigma (λ g, mul (value g) (w g)) gs) (sigma w gs))
  end.

Definition computeAverage_spec (gs : list Grade) : number :=
  weightedMean explicitWeight gs.

(** The weight [calculateAverage] uses for a grade. *)
Definition effectiveWeight (g : Grade) : number := orDefault (weight g) one.

(** ** The environment of the storage functions *)

(** A parsed JSON value, as far as the storage code looks at it: an array of
    subject records, or any other value. *)
Inductive json :=
| JOther
| JArray (l : list Subject).

(** A text held under [STORAGE_KEY]. *)
Inductive text :=
| EmptyText
| Malformed
| TextOf (j : json).

#[global] Instance json_eq_dec : EqDecision json.
Proof. solve_decision. Defined.

#[global] Instance text_eq_dec : EqDecision text.
Proof. solve_decision. Defined.

(** [JSON.stringify] writes [null] for [NaN] and for the infinities; the
    model keeps the number, so what is said of a text that is read back is
    said for [finiteSubject]s. *)
Definition JSON_stringify (subjects : list Subject) : text := TextOf (JArray subjects).

Definition finite (x : number) : Prop :=
  match x with
  | Fin _ => True
  | _ => False
  end.

Definition finiteGrade (g : Grade) : Prop :=
  finite (value g) ∧ ∀ w, weight g = Some w → finite w.

Definition finiteSubject (s : Subject) : Prop :=
  Forall finiteGrade (grades s) ∧ ∀ a, averageGrade s = Some a → finite a.

Inductive Event :=
| subjectsUpdated
| syncPreferenceChanged.

(** What [await getSubjectsFromCloud(userId)] yields. *)
Inductive fetchResult :=
| FetchThrows
| FetchNull
| FetchOther
| FetchArray (l : list Subject).

(** What [await syncSubjectsToCloud(userId, subjects)] yields. *)
Inductive pushResult :=
| PushThrows
| PushReturns (syncSuccess : bool).

Inductive outcome (A : Type) :=
| Ret (a : A)
| Throw.
Arguments Ret {A} a.
Arguments Throw {A}.

Definition initializeSubjects : list Subject :=
  [ mkSubject "math" "Mathematics" [] None;
    mkSubject "german" "German" [] None;
    mkSubject "english" "English" [] None;
    mkSubject "science" "Science" [] None;
    mkSubject "history" "History" [] None ].

(** ToBoolean on [userId?: string] and [syncEnabled?: boolean]. *)
Definition truthyId (userId : option string) : bool :=
  match userId with
  | Some s => negb (String.eqb s EmptyString)
  | None => false
  end.

Definition truthyFlag (syncEnabled : option bool) : bool := default false syncEnabled.

(** *** Subject objects on the heap

    [JSON.parse] builds fresh objects; an array holds references to them.
    Grade objects are reachable from their subject only, so a subject
    object is kept with its grades by value. *)

Abbreviation ref := nat (only parsing).
Abbreviation Heap := (list Subject) (only parsing).

Definition alloc (l : list Subject) : list ref * Heap := (seq 0 (length l), l).

Definition deref (h : Heap) (arr : list ref) : list Subject := omap (λ r, h !! r) arr.

(** [arr.map(f)] for a callback that reads and writes the heap. *)
Fixpoint Array_map (f : ref → Heap → ref * Heap) (arr : list ref) (h : Heap)
  : list ref * Heap :=
  match arr with
  | [] => ([], h)
  | r :: arr' =>
      let '(r', h1) := f r h in
      let '(out, h2) := Array_map f arr' h1 in
      (r' :: out, h2)
  end.

(** The callback of [subject.grades.map]: the default weight by type. *)
Definition migrateGrade (grade : Grade) : Grade :=
  match weight grade with
  | None =>
      mkGrade (value grade) (type grade)
              (Some (if String.eqb (type grade) "Test" then two else one))
              (date grade)
  | Some _ => grade
  end.

(** The callback of [subjects.map]: it writes to the subject object it is
    given and returns the same reference. *)
Definition migrateCallback (subject : ref) (h : Heap) : ref * Heap :=
  match h !! subject with
  | Some s =>
      if bool_decide (0 < length (grades s))%nat then
        let gs := map migrateGrade (grades s) in
        let s1 := mkSubject (id s) (name s) gs (averageGrade s) in
        let s2 := mkSubject (id s1) (name s1) (grades s1)
                            (Some (calculateAverage (grades s1))) in
        (subject, <[subject := s2]> h)
      else (subject, h)
  | None => (subject, h)
  end.

(** The migration pass on a freshly parsed collection: the value of
    [migratedSubjects]. *)
Definition migrationPass (l : list Subject) : list Subject :=
  let '(subjects, h) := alloc l in
  let '(migratedSubjects, h') := Array_map migrateCallback subjects h in
  deref h' migratedSubjects.

(** The migration of one subject, by value. *)
Definition migrateSubject (s : Subject) : Subject :=
  match grades s with
  | [] => s
  | _ =>
      let gs := map migrateGrade (grades s) in
      mkSubject (id s) (name s) gs (Some (calculateAverage gs))
  end.

(** [arr.filter((x, i) => p x i)], positions counted from [i]. *)
Fixpoint filterFrom {A : Type} (p : A → nat → bool) (i : nat) (l : list A) : list A :=
  match l with
  | [] => []
  | x :: l' =>
      if p x i then x :: filterFrom p (S i) l' else filterFrom p (S i) l'
  end.

Definition Array_filter {A : Type} (p : A → nat → bool) (l : list A) : list A :=
  filterFrom p 0 l.

(** ** The storage functions *)

Section Storage.

(** The imports from [@/lib/appwrite]: the capability flag and the two
    calls to the cloud peer, which has a state of its own and no access
    to [localStorage] or to [window]. *)
Variable Cloud : Type.
Variable ENABLE_CLOUD_FEATURES : bool.
Variable getSubjectsFromCloud : string → Cloud → fetchResult * Cloud.
Variable syncSubjectsToCloud : string → list Subject → Cloud → pushResult * Cloud.

(** [browser]: [window] and [localStorage] are defined; outside a
    browser a use of either throws a ReferenceError.
    [quotaExceeded t]: [localStorage.setItem] throws on writing [t].
    [localStorage]: the item under [STORAGE_KEY].
    [events]: the events dispatched on [window], latest first. *)
Record World := mkWorld {
  browser : bool;
  quotaExceeded : text → bool;
  localStorage : option text;
  events : list Event;
  cloud : Cloud
}.

(** Computations that read and write the world and may throw. *)
Definition M (A : Type) : Type := World → outcome A * World.

Definition ret {A : Type} (a : A) : M A := λ w, (Ret a, w).

Definition throw {A : Type} : M A := λ w, (Throw, w).

Definition bind {A B : Type} (m : M A) (k : A → M B) : M B :=
  λ w, match m w with
       | (Ret a, w') => k a w'
       | (Throw, w') => (Throw, w')
       end.

(** [try { m } catch (error) { h }] *)
Definition try_catch {A : Type} (m : M A) (h : M A) : M A :=
  λ w, match m w with
       | (Ret a, w') => (Ret a, w')
       | (Throw, w') => h w'
       end.

Notation "'let*' x ':=' m 'in' k" := (bind m (λ x, k))
  (at level 10, x name, m at level 100, k at level 200).
Notation "m ';;' k" := (bind m (λ _, k))
  (at level 100, k at level 200, right associativity).

Definition typeof_window_undefined : M bool := λ w, (Ret (negb (browser w)), w).

Definition localStorage_setItem (t : text) : M unit :=
  λ w, if browser w && negb (quotaExceeded w t)
       then (Ret (), mkWorld (browser w) (quotaExceeded w) (Some t) (events w) (cloud w))
       else (Throw, w).

Definition localStorage_getItem : M (option text) :=
  λ w, if browser w then (Ret (localStorage w), w) else (Throw, w).

Definition window_dispatchEvent (e : Event) : M unit :=
  λ w, if browser w
       then (Ret (), mkWorld (browser w) (quotaExceeded w) (localStorage w)
                             (e :: events w) (cloud w))
       else (Throw, w).

Definition JSON_parse (t : text) : M json :=
  match t with
  | TextOf j => ret j
  | _ => throw
  end.

Definition await_getSubjectsFromCloud (userId : string) : M fetchResult :=
  λ w, let '(r, c) := getSubjectsFromCloud userId (cloud w) in
       let w' := mkWorld (browser w) (quotaExceeded w) (localStorage w) (events w) c in
       match r with
       | FetchThrows => (Throw, w')
       | _ => (Ret r, w')
       end.

Definition await_syncSubjectsToCloud (userId : string) (subjects : list Subject) : M bool :=
  λ w, let '(r, c) := syncSubjectsToCloud userId subjects (cloud w) in
       let w' := mkWorld (browser w) (quotaExceeded w) (localStorage w) (events w) c in
       match r with
       | PushThrows => (Throw, w')
       | PushReturns syncSuccess => (Ret syncSuccess, w')
       end.

(** [ENABLE_CLOUD_FEATURES && userId && syncEnabled]: the user id to
    call the cloud with, if the guard holds. *)
Definition cloudGuard (userId : option string) (syncEnabled : option bool) : option string :=
  if ENABLE_CLOUD_FEATURES && truthyId userId && truthyFlag syncEnabled
  then userId else None.

Definition notifySubjectsUpdated : M unit :=
  let* noWindow := typeof_window_undefined in
  if negb noWindow then window_dispatchEvent subjectsUpdated else ret ().

Definition saveSubjectsToStorage (subjects : list Subject)
    (userId : option string) (syncEnabled : option bool) : M bool :=
  try_catch
    (let subjectsJson := JSON_stringify subjects in
     localStorage_setItem subjectsJson;;
     notifySubjectsUpdated;;
     match cloudGuard userId syncEnabled with
     | Some uid =>
         try_catch
           (let* syncSuccess := await_syncSubjectsToCloud uid subjects in
            if negb syncSuccess
            then window_dispatchEvent syncPreferenceChanged
            else ret ())
           (window_dispatchEvent syncPreferenceChanged)
     | None => ret ()
     end;;
     ret true)
    (ret false).

(** The cloud branch of [getSubjectsFromStorage]: [Some l] when it
    returns [l], [None] when control falls through to the local read. *)
Definition cloudRead (userId : option string) (syncEnabled : option bool)
  : M (option (list Subject)) :=
  match cloudGuard userId syncEnabled with
  | Some uid =>
      try_catch
        (let* cloudSubjects := await_getSubjectsFromCloud uid in
         match cloudSubjects with
         | FetchArray l =>
             if bool_decide (0 < length l)%nat then
               let subjectsJson := JSON_stringify l in
               localStorage_setItem subjectsJson;;
               ret (Some l)
             else ret None
         | _ => ret None
         end)
        (ret None)
  | None => ret None
  end.

(** From [localStorage.getItem] to the end of the [try] block. *)
Definition localRead (userId : option string) (syncEnabled : option bool)
  : M (list Subject) :=
  let* subjectsJson := localStorage_getItem in
  match subjectsJson with
  | None | Some EmptyText =>
      let defaultSubjects := initializeSubjects in
      saveSubjectsToStorage defaultSubjects userId syncEnabled;;
      ret defaultSubjects
  | Some t =>
      let* parsed :=
        try_catch
          (let* parsedData := JSON_parse t in
           ret (match parsedData with JArray l => l | JOther => [] end))
          (ret []) in
      (* the objects of the parsed array, and [subjects], the array itself *)
      let '(subjects, h) := alloc parsed in
      if bool_decide (length subjects = 0)%nat then
        let subjects := initializeSubjects in
        saveSubjectsToStorage subjects userId syncEnabled;;
        ret subjects
      else
        let '(migratedSubjects, h') := Array_map migrateCallback subjects h in
        (if bool_decide (JSON_stringify (deref h' subjects)
                         ≠ JSON_stringify (deref h' migratedSubjects))
         then saveSubjectsToStorage (deref h' migratedSubjects) userId syncEnabled;; ret ()
         else ret ());;
        ret (deref h' migratedSubjects)
  end.

Definition getSubjectsFromStorage (userId : option string) (syncEnabled : option bool)
  : M (list Subject) :=
  try_catch
    (let* fromCloud := cloudRead userId syncEnabled in
     match fromCloud with
     | Some cloudSubjects => ret cloudSubjects
     | None =>
         let* noWindow := typeof_window_undefined in
         if noWindow then ret initializeSubjects
         else localRead userId syncEnabled
     end)
    (let defaultSubjects := initializeSubjects in
     saveSubjectsToStorage defaultSubjects userId syncEnabled;;
     ret defaultSubjects).

(** [list_find] is [findIndex] together with the element found, which
    the code reads as [subjects[subjectIndex]]. *)
Definition addGradeToSubject (subjectid : string) (grade : Grade)
    (userId : option string) (syncEnabled : option bool) : M bool :=
  try_catch
    (let* subjects := getSubjectsFromStorage userId syncEnabled in
     match list_find (λ s, id s = subjectid) subjects with
     | None => ret false
     | Some (subjectIndex, s) =>
         let gs := grades s ++ [grade] in
         let updatedSubject := mkSubject (id s) (name s) gs (Some (calculateAverage gs)) in
         let subjects := <[subjectIndex := updatedSubject]> subjects in
         let* saveResult := saveSubjectsToStorage subjects userId syncEnabled in
         ret saveResult
     end)
    (ret false).

(** [gradeIndex] is an integer: a [number] that is not one equals no
    position, like an integer out of range. *)
Definition deleteGradeFromSubject (subjectid : string) (gradeIndex : Z)
    (userId : option string) (syncEnabled : option bool) : M bool :=
  try_catch
    (let* subjects := getSubjectsFromStorage userId syncEnabled in
     match list_find (λ s, id s = subjectid) subjects with
     | None => ret false
     | Some (subjectIndex, s) =>
         if bool_decide (length (grades s) = 0)%nat then ret true
         else
           let gs := Array_filter (λ _ i, negb (Z.of_nat i =? gradeIndex)%Z) (grades s) in
           let updatedSubject := mkSubject (id s) (name s) gs (Some (calculateAverage gs)) in
           let subjects := <[subjectIndex := updatedSubject]> subjects in
           saveSubjectsToStorage subjects userId syncEnabled
     end)
    (ret false).

(** *** The other exports of the storage module *)

(** The methods of [String.prototype] that [addNewSubject] calls:
    [name.trim()], [name.toLowerCase()] and [s.replace(/\s+/g, "-")]. *)
Variable String_trim : string → string.
Variable String_toLowerCase : string → string.
Variable String_replace_whitespace : string → string.

Definition localStorage_removeItem : M unit :=
  λ w, if browser w
       then (Ret (), mkWorld (browser w) (quotaExceeded w) None (events w) (cloud w))
       else (Throw, w).

Definition clearAllGradesData : M unit := localStorage_removeItem.

(** [subject || null] is [None] when no subject has the id. *)
Definition getSubjectById (subjectId : string) : M (option Subject) :=
  try_catch
    (let* subjects := getSubjectsFromStorage None None in
     let subject := snd <$> list_find (λ s, id s = subjectId) subjects in
     ret subject)
    (ret None).

Definition ensureAllSubjectsExist (subjects : list Subject) : list Subject :=
  let defaultSubjects := initializeSubjects in
  let existingSubjectIds := map id subjects in
  let missingSubjects :=
    filter (λ s, id s ∉ existingSubjectIds) defaultSubjects in
  subjects ++ missingSubjects.

Definition addNewSubject (name : string) (userId : option string)
    (syncEnabled : option bool) : M bool :=
  try_catch
    (if String.eqb (String_trim name) EmptyString then ret false
     else
       let* subjects := getSubjectsFromStorage userId syncEnabled in
       let id' := String_replace_whitespace (String_toLowerCase name) in
       if bool_decide (Exists (λ s, id s = id') subjects) then ret false
       else
         let newSubject := mkSubject id' name [] None in
         let updatedSubjects := subjects ++ [newSubject] in
         saveSubjectsToStorage updatedSubjects userId syncEnabled)
    (ret false).

(** [x <= y] on numbers. *)
Definition leb (x y : number) : bool :=
  match x, y with
  | NaN, _ | _, NaN => false
  | Fin a, Fin b => bool_decide (a ≤ b)
  | NInf, _ | _, PInf => true
  | _, _ => false
  end.

(** [getGradeColor] of [src/app/page.tsx]. *)
Definition getGradeColor (grade : number) : string :=
  if leb grade (num (3 # 2)) then "bg-green-500"
  else if leb grade (num (5 # 2)) then "bg-yellow-500"
  else if leb grade (num (7 # 2)) then "bg-orange-500"
  else "bg-red-500".

(** ** Arithmetic of the number model *)

(** Decides an equation between two closed numbers. *)
Ltac number_eq :=
  vm_compute;
  first [ reflexivity | apply (f_equal Fin), Qc_is_canon; reflexivity ].

Lemma add_comm (x y : number) : add x y = add y x.
Proof.
  destruct x as [a| | |], y as [b| | |]; simpl; try reflexivity.
  f_equal. ring.
Qed.

Lemma add_assoc (x y z : number) : add x (add y z) = add (add x y) z.
Proof.
  destruct x as [a| | |], y as [b| | |], z as [c| | |]; simpl; try reflexivity.
  f_equal. ring.
Qed.

Lemma add_zero_l (x : number) : add zero x = x.
Proof. destruct x as [a| | |]; simpl; try reflexivity. f_equal. ring. Qed.

Lemma add_zero_r (x : number) : add x zero = x.
Proof. rewrite add_comm. apply add_zero_l. Qed.

Lemma truthy_one : truthy one = true.
Proof. vm_compute. reflexivity. Qed.

Lemma sigma_ext (f g : Grade → number) (gs : list Grade) :
  Forall (λ x, f x = g x) gs → sigma f gs = sigma g gs.
Proof.
  induction 1 as [|x gs Hx _ IH]; simpl; [reflexivity|].
  by rewrite Hx, IH.
Qed.

(** ** The weighted average *)

(** The accumulator of [reduce] after a run over [gs]. *)
Lemma fold_reducer (gs : list Grade) (acc : Acc) :
  fold_left reducer gs acc =
  {| weightedSum :=
       add (weightedSum acc) (sigma (λ g, mul (value g) (effectiveWeight g)) gs);
     totalWeight := add (totalWeight acc) (sigma effectiveWeight gs) |}.
Proof.
  revert acc. induction gs as [|g gs IH]; intros acc; simpl.
  - rewrite !add_zero_r. by destruct acc.
  - rewrite IH. simpl. fold (effectiveWeight g). by rewrite !add_assoc.
Qed.

(** [calculateAverage] is the rounded weighted mean under the weights it
    uses: the explicit weight when that is truthy, 1.0 otherwise. *)
Lemma calculateAverage_weightedMean (gs : list Grade) :
  calculateAverage gs = weightedMean effectiveWeight gs.
Proof.
  destruct gs as [|g gs]; [reflexivity|].
  unfold calculateAverage, weightedMean.
  rewrite fold_reducer. cbn [weightedSum totalWeight].
  by rewrite !add_zero_l.
Qed.

(** A grade whose weight is absent or truthy. *)
Definition plainWeight (g : Grade) : Prop :=
  match weight g with
  | Some w => truthy w = true
  | None => True
  end.

Lemma effectiveWeight_plain (g : Grade) :
  plainWeight g → effectiveWeight g = explicitWeight g.
Proof.
  unfold plainWeight, effectiveWeight, explicitWeight, orDefault.
  destruct (weight g) as [w|]; simpl; [|done]. by intros ->.
Qed.

(** On grades whose explicit weights are all truthy, [calculateAverage]
    is the average of the specification. *)
Lemma calculateAverage_plain (gs : list Grade) :
  Forall plainWeight gs → calculateAverage gs = computeAverage_spec gs.
Proof.
  intros H. rewrite calculateAverage_weightedMean.
  unfold computeAverage_spec, weightedMean. destruct gs as [|g gs]; [done|].
  f_equal. f_equal.
  - apply sigma_ext. eapply Forall_impl; [|exact H].
    intros x Hx. simpl. by rewrite effectiveWeight_plain.
  - apply sigma_ext. eapply Forall_impl; [|exact H].
    intros x Hx. by apply effectiveWeight_plain.
Qed.

(** The example of the specification: a "Test" 2.0 of weight 2.0 and an
    "Other" 4.0 of weight 1.0 average to 2.67. *)
Example calculateAverage_test_other :
  calculateAverage [ mkGrade (num 2) "Test" (Some two) "2024-01-10";
                     mkGrade (num 4) "Other" (Some one) "2024-01-11" ]
  = num (267 # 100).
Proof. number_eq. Qed.

(** C1. The claim: [computeAverage] is 0 on the empty sequence and
    otherwise round2(Σ value_i × weight_i / Σ weight_i), the weight being
    1.0 only for a grade without an explicit weight.  On a grade 2.0 of
    explicit weight 0 followed by a grade 4.0 of weight 1, that average is
    4, and [calculateAverage] returns 3: it counts the first grade with
    weight 1.0. *)
Theorem calculateAverage_zero_weight :
  let gs := [ mkGrade (num 2) "Other" (Some zero) "2024-01-10";
              mkGrade (num 4) "Other" (Some one) "2024-01-11" ] in
  calculateAverage gs = num 3
  ∧ computeAverage_spec gs = num 4
  ∧ calculateAverage gs ≠ computeAverage_spec gs.
Proof.
  cbv zeta.
  set (gs := [ mkGrade (num 2) "Other" (Some zero) "2024-01-10";
               mkGrade (num 4) "Other" (Some one) "2024-01-11" ]).
  assert (H3 : calculateAverage gs = num 3) by number_eq.
  assert (H4 : computeAverage_spec gs = num 4) by number_eq.
  split; [exact H3|]. split; [exact H4|].
  rewrite H3, H4. intros E. inversion E.
Qed.

(** C10. A grade whose explicit weight is falsy (0 or NaN) is counted by
    [calculateAverage] as a grade of weight 1.0: it adds value × 1.0 to
    the weighted sum and 1.0 to the total weight, and the average is the
    one of the sequence in which that weight is replaced by 1.0. *)
Theorem calculateAverage_falsy_weight
    (v : number) (ty d : string) (w : number) (acc : Acc) (before after : list Grade)
    (Hfalsy : truthy w = false) :
  reducer acc (mkGrade v ty (Some w) d)
  = {| weightedSum := add (weightedSum acc) (mul v one);
       totalWeight := add (totalWeight acc) one |}
  ∧ calculateAverage (before ++ mkGrade v ty (Some w) d :: after)
    = calculateAverage (before ++ mkGrade v ty (Some one) d :: after).
Proof.
  assert (Hr : ∀ a, reducer a (mkGrade v ty (Some w) d)
                    = reducer a (mkGrade v ty (Some one) d)).
  { intros a. unfold reducer, orDefault. cbn [weight value].
    by rewrite Hfalsy, truthy_one. }
  split.
  - unfold reducer, orDefault. cbn [weight value]. by rewrite Hfalsy.
  - assert (Hf : ∀ a, fold_left reducer (before ++ mkGrade v ty (Some w) d :: after) a
                      = fold_left reducer (before ++ mkGrade v ty (Some one) d :: after) a).
    { intros a. rewrite !fold_left_app. simpl. by rewrite Hr. }
    unfold calculateAverage. rewrite Hf. by destruct before.
Qed.

(** ** The migration pass *)

Lemma migrateCallback_ref (r : ref) (h : Heap) : (migrateCallback r h).1 = r.
Proof.
  unfold migrateCallback. destruct (h !! r) as [s|]; [|done].
  by case_bool_decide.
Qed.

(** [subjects.map] with this callback returns the references it was
    given: [migratedSubjects] holds the objects of [subjects]. *)
Lemma Array_map_refs (arr : list ref) (h : Heap) :
  (Array_map migrateCallback arr h).1 = arr.
Proof.
  revert h. induction arr as [|r arr IH]; intros h; simpl; [done|].
  pose proof (migrateCallback_ref r h) as Hr.
  destruct (migrateCallback r h) as [r' h1]. simpl in Hr. subst r'.
  specialize (IH h1). destruct (Array_map migrateCallback arr h1) as [out h2].
  simpl in *. by subst.
Qed.

Lemma migrateCallback_middle (pre l : list Subject) (s : Subject) :
  migrateCallback (length pre) (pre ++ s :: l)
  = (length pre, pre ++ migrateSubject s :: l).
Proof.
  unfold migrateCallback, migrateSubject.
  rewrite list_lookup_middle by done.
  destruct (grades s) as [|g gs] eqn:Hg; simpl.
  - done.
  - f_equal.
    rewrite insert_app_r_alt by done.
    by replace (length pre - length pre)%nat with 0%nat by lia.
Qed.

Lemma Array_map_migrate (pre l : list Subject) :
  Array_map migrateCallback (seq (length pre) (length l)) (pre ++ l)
  = (seq (length pre) (length l), pre ++ map migrateSubject l).
Proof.
  revert pre. induction l as [|s l IH]; intros pre; simpl; [done|].
  rewrite migrateCallback_middle.
  specialize (IH (pre ++ [migrateSubject s])).
  rewrite length_app, <- app_assoc in IH. simpl in IH.
  replace (length pre + 1)%nat with (S (length pre)) in IH by lia.
  rewrite IH. by rewrite <- app_assoc.
Qed.

Lemma deref_seq (pre l : list Subject) :
  deref (pre ++ l) (seq (length pre) (length l)) = l.
Proof.
  unfold deref. revert pre. induction l as [|s l IH]; intros pre; simpl; [done|].
  rewrite list_lookup_middle by done. f_equal.
  specialize (IH (pre ++ [s])).
  rewrite length_app, <- app_assoc in IH. simpl in IH.
  by replace (length pre + 1)%nat with (S (length pre)) in IH by lia.
Qed.

(** The pass on the heap computes the migration by value. *)
Lemma migrationPass_map (l : list Subject) :
  migrationPass l = map migrateSubject l.
Proof.
  unfold migrationPass, alloc.
  pose proof (Array_map_migrate [] l) as H. simpl in H. rewrite H.
  rewrite <- (length_map migrateSubject l).
  apply (deref_seq [] (map migrateSubject l)).
Qed.

Lemma migrateGrade_idem (g : Grade) : migrateGrade (migrateGrade g) = migrateGrade g.
Proof.
  unfold migrateGrade. destruct (weight g) eqn:Hw; simpl; by rewrite ?Hw.
Qed.

Lemma migrateSubject_idem (s : Subject) :
  migrateSubject (migrateSubject s) = migrateSubject s.
Proof.
  unfold migrateSubject. destruct (grades s) as [|g gs] eqn:Hg; simpl.
  - by rewrite Hg.
  - by rewrite !migrateGrade_idem, map_map, (map_ext _ _ migrateGrade_idem).
Qed.

(** C9. The migration pass is idempotent: run on its own output, it
    returns that output. *)
Theorem migrationPass_idempotent (l : list Subject) :
  migrationPass (migrationPass l) = migrationPass l.
Proof.
  rewrite !migrationPass_map, map_map.
  apply map_ext. intros s. apply migrateSubject_idem.
Qed.

(** ** What the storage functions do to the world *)

Definition withItem (t : text) (w : World) : World :=
  mkWorld (browser w) (quotaExceeded w) (Some t) (events w) (cloud w).

Definition withEvent (e : Event) (w : World) : World :=
  mkWorld (browser w) (quotaExceeded w) (localStorage w) (e :: events w) (cloud w).

Definition withCloud (c : Cloud) (w : World) : World :=
  mkWorld (browser w) (quotaExceeded w) (localStorage w) (events w) c.

(** [localStorage.setItem(STORAGE_KEY, t)] does not throw in [w]. *)
Definition writable (w : World) (t : text) : bool :=
  browser w && negb (quotaExceeded w t).

(** The world after the cloud push of [saveSubjectsToStorage]. *)
Definition pushed (subjects : list Subject) (userId : option string)
    (syncEnabled : option bool) (w : World) : World :=
  match cloudGuard userId syncEnabled with
  | Some uid =>
      match syncSubjectsToCloud uid subjects (cloud w) with
      | (PushReturns true, c) => withCloud c w
      | (_, c) => withEvent syncPreferenceChanged (withCloud c w)
      end
  | None => w
  end.

(** The world after a [saveSubjectsToStorage] whose local write went
    through. *)
Definition saved (subjects : list Subject) (userId : option string)
    (syncEnabled : option bool) (w : World) : World :=
  pushed subjects userId syncEnabled
    (withEvent subjectsUpdated (withItem (JSON_stringify subjects) w)).

Lemma setItem_throws_iff (w : World) (t : text) :
  (localStorage_setItem t w).1 = Throw ↔ writable w t = false.
Proof.
  unfold localStorage_setItem, writable.
  destruct (browser w && negb (quotaExceeded w t)); simpl; split; congruence.
Qed.

Lemma save_eq (subjects : list Subject) (userId : option string)
    (syncEnabled : option bool) (w : World) :
  saveSubjectsToStorage subjects userId syncEnabled w
  = if writable w (JSON_stringify subjects)
    then (Ret true, saved subjects userId syncEnabled w)
    else (Ret false, w).
Proof.
  unfold saveSubjectsToStorage, saved, pushed, try_catch, bind, writable,
    localStorage_setItem, notifySubjectsUpdated, typeof_window_undefined, bind, ret,
    await_syncSubjectsToCloud, window_dispatchEvent, withEvent, withCloud, withItem.
  destruct (browser w) eqn:Hb; simpl; [|done].
  destruct (quotaExceeded w (JSON_stringify subjects)) eqn:Hq; simpl; [done|].
  rewrite ?Hb. simpl.
  destruct (cloudGuard userId syncEnabled) as [uid|]; simpl; [|done].
  destruct (syncSubjectsToCloud uid subjects (cloud w)) as [[|[|]] c];
    simpl; rewrite ?Hb; reflexivity.
Qed.

(** [saveSubjectsToStorage] always returns, and leaves [browser] and
    [quotaExceeded] as they were. *)
Lemma save_returns (subjects : list Subject) (userId : option string)
    (syncEnabled : option bool) (w : World) :
  ∃ b w', saveSubjectsToStorage subjects userId syncEnabled w = (Ret b, w').
Proof. rewrite save_eq. destruct (writable _ _); eauto. Qed.

Lemma pushed_localStorage subjects userId syncEnabled (w : World) :
  localStorage (pushed subjects userId syncEnabled w) = localStorage w.
Proof.
  unfold pushed. destruct (cloudGuard _ _); [|done].
  by destruct (syncSubjectsToCloud _ _ _) as [[|[|]] c].
Qed.

Lemma saved_localStorage subjects userId syncEnabled (w : World) :
  localStorage (saved subjects userId syncEnabled w) = Some (JSON_stringify subjects).
Proof. unfold saved. by rewrite pushed_localStorage. Qed.

(** C4. [saveSubjectsToStorage] returns a boolean and never throws; the
    boolean is [false] exactly when the local write throws.  When the
    write goes through the text is in [localStorage], and the cloud push,
    whatever it returns or throws, changes the events only: a push that
    throws or returns [false] dispatches [syncPreferenceChanged] after
    [subjectsUpdated], a push that returns [true] dispatches nothing
    more. *)
Theorem save_result (subjects : list Subject) (userId : option string)
    (syncEnabled : option bool) (w : World) :
  ∃ (b : bool) (w' : World),
    saveSubjectsToStorage subjects userId syncEnabled w = (Ret b, w')
    ∧ (b = false ↔ (localStorage_setItem (JSON_stringify subjects) w).1 = Throw)
    ∧ (b = false → w' = w)
    ∧ (b = true → localStorage w' = Some (JSON_stringify subjects))
    ∧ (b = true → ∀ uid r c,
         cloudGuard userId syncEnabled = Some uid →
         syncSubjectsToCloud uid subjects (cloud w) = (r, c) →
         cloud w' = c
         ∧ events w'
           = match r with
             | PushReturns true => subjectsUpdated :: events w
             | _ => syncPreferenceChanged :: subjectsUpdated :: events w
             end)
    ∧ (b = true → cloudGuard userId syncEnabled = None →
         cloud w' = cloud w ∧ events w' = subjectsUpdated :: events w).
Proof.
  pose proof (save_eq subjects userId syncEnabled w) as Hs.
  pose proof (setItem_throws_iff w (JSON_stringify subjects)) as Ht.
  destruct (writable w (JSON_stringify subjects)) eqn:Hw.
  - eexists true, _. split; [exact Hs|].
    split; [split; [done|]; intros E; apply Ht in E; done|].
    split; [done|].
    split; [intros _; apply saved_localStorage|].
    unfold saved, pushed. split.
    + intros _ uid r c -> Hpush. simpl. rewrite Hpush.
      by destruct r as [|[|]].
    + by intros _ ->.
  - eexists false, w. split; [exact Hs|].
    split; [split; [intros _; by apply Ht|done]|].
    repeat split; done.
Qed.

(** *** getSubjectsFromStorage *)

(** The array that the local read parses out of [localStorage]: empty
    when the item is absent, empty, malformed or not an array. *)
Definition storedSubjects (w : World) : list Subject :=
  match localStorage w with
  | Some (TextOf (JArray l)) => l
  | _ => []
  end.

(** The array that the cloud branch returns on the fetch result [r]: a
    non-empty array whose write-through does not throw. *)
Definition cloudDelivers (w : World) (r : fetchResult) : option (list Subject) :=
  match r with
  | FetchArray l =>
      if bool_decide (0 < length l)%nat && writable w (JSON_stringify l)
      then Some l else None
  | _ => None
  end.

(** Result and world of the cloud branch. *)
Definition afterFetch (userId : option string) (syncEnabled : option bool) (w : World)
  : option (list Subject) * World :=
  match cloudGuard userId syncEnabled with
  | Some uid =>
      let '(r, c) := getSubjectsFromCloud uid (cloud w) in
      match cloudDelivers w r with
      | Some l => (Some l, withItem (JSON_stringify l) (withCloud c w))
      | None => (None, withCloud c w)
      end
  | None => (None, w)
  end.

Lemma cloudRead_eq (userId : option string) (syncEnabled : option bool) (w : World) :
  cloudRead userId syncEnabled w
  = (Ret (afterFetch userId syncEnabled w).1, (afterFetch userId syncEnabled w).2).
Proof.
  unfold cloudRead, afterFetch.
  destruct (cloudGuard userId syncEnabled) as [uid|]; [|done].
  unfold try_catch, bind, await_getSubjectsFromCloud, cloudDelivers, writable,
    localStorage_setItem, ret, withItem, withCloud.
  destruct (getSubjectsFromCloud uid (cloud w)) as [[| | |l] c]; simpl; try done.
  case_bool_decide; simpl; [|done].
  by destruct (browser w && negb (quotaExceeded w (JSON_stringify l))).
Qed.

Lemma afterFetch_browser userId syncEnabled (w : World) :
  browser (afterFetch userId syncEnabled w).2 = browser w.
Proof.
  unfold afterFetch. destruct (cloudGuard _ _); [|done].
  destruct (getSubjectsFromCloud _ _) as [r c].
  by destruct (cloudDelivers w r).
Qed.

Lemma localRead_eq (userId : option string) (syncEnabled : option bool) (w : World) :
  browser w = true →
  localRead userId syncEnabled w
  = match storedSubjects w with
    | [] => (Ret initializeSubjects,
             (saveSubjectsToStorage initializeSubjects userId syncEnabled w).2)
    | _ :: _ => (Ret (migrationPass (storedSubjects w)), w)
    end.
Proof.
  intros Hb.
  destruct (save_returns initializeSubjects userId syncEnabled w) as (b & w' & Hs).
  unfold localRead, storedSubjects, bind, localStorage_getItem. rewrite Hb.
  destruct (localStorage w) as [[| |[|l]]|]; simpl;
    unfold bind, try_catch, throw, ret; simpl; rewrite ?Hs; try done.
  destruct l as [|x l]; simpl.
  - unfold bind. by rewrite Hs.
  - fold (migrateCallback 0 (x :: l)).
    pose proof (Array_map_migrate [] (x :: l)) as Hm. simpl in Hm.
    fold (migrateCallback 0 (x :: l)) in Hm.
    destruct (migrateCallback 0 (x :: l)) as [r' h1].
    destruct (Array_map migrateCallback (seq 1 (length l)) h1) as [out h2].
    injection Hm as -> -> ->.
    rewrite bool_decide_false by (intros H; by apply H).
    unfold ret. f_equal. f_equal.
    rewrite migrationPass_map.
    pose proof (deref_seq [] (migrateSubject x :: map migrateSubject l)) as Hd.
    simpl in Hd. rewrite length_map in Hd. exact Hd.
Qed.

Lemma load_eq (userId : option string) (syncEnabled : option bool) (w : World) :
  getSubjectsFromStorage userId syncEnabled w
  = match afterFetch userId syncEnabled w with
    | (Some cloudSubjects, w1) => (Ret cloudSubjects, w1)
    | (None, w1) =>
        if browser w1 then localRead userId syncEnabled w1
        else (Ret initializeSubjects, w1)
    end.
Proof.
  unfold getSubjectsFromStorage, try_catch, bind. rewrite cloudRead_eq.
  destruct (afterFetch userId syncEnabled w) as [[l|] w1]; simpl; [done|].
  unfold typeof_window_undefined, ret.
  destruct (browser w1) eqn:Hb; simpl; [|done].
  rewrite localRead_eq by done.
  by destruct (storedSubjects w1).
Qed.

(** [getSubjectsFromStorage] always returns. *)
Lemma load_returns (userId : option string) (syncEnabled : option bool) (w : World) :
  ∃ subjects w', getSubjectsFromStorage userId syncEnabled w = (Ret subjects, w').
Proof.
  rewrite load_eq. destruct (afterFetch userId syncEnabled w) as [[l|] w1]; [eauto|].
  destruct (browser w1) eqn:Hb; [|eauto].
  rewrite localRead_eq by done. destruct (storedSubjects w1); eauto.
Qed.

Lemma cloudGuard_Some (userId : option string) (syncEnabled : option bool) (uid : string) :
  cloudGuard userId syncEnabled = Some uid ↔
  ENABLE_CLOUD_FEATURES = true ∧ userId = Some uid ∧ uid ≠ EmptyString
  ∧ syncEnabled = Some true.
Proof.
  unfold cloudGuard, truthyId, truthyFlag.
  destruct ENABLE_CLOUD_FEATURES, userId as [u|], syncEnabled as [[|]|]; simpl;
    rewrite ?andb_false_r;
    try (split; [done|]; intros (? & ? & ? & ?); done).
  destruct (String.eqb_spec u EmptyString) as [->|Hu]; simpl.
  - split; [done|]. intros (_ & [= <-] & Hne & _). done.
  - split; [intros [= <-]; done|]. by intros (_ & -> & _ & _).
Qed.

Lemma cloudGuard_anonymous : cloudGuard None None = None.
Proof. unfold cloudGuard. simpl. by rewrite andb_false_r. Qed.

Lemma cloudGuard_disabled (userId : option string) (syncEnabled : option bool) :
  ENABLE_CLOUD_FEATURES = false → cloudGuard userId syncEnabled = None.
Proof. unfold cloudGuard. by intros ->. Qed.

(** A read that does not go through the cloud and finds a non-empty array
    in [localStorage] returns its migration and writes nothing. *)
Lemma load_stored (userId : option string) (syncEnabled : option bool) (w : World) :
  cloudGuard userId syncEnabled = None →
  browser w = true →
  storedSubjects w ≠ [] →
  getSubjectsFromStorage userId syncEnabled w
  = (Ret (migrationPass (storedSubjects w)), w).
Proof.
  intros Hg Hb Hs. rewrite load_eq. unfold afterFetch. rewrite Hg, Hb.
  rewrite localRead_eq by done. by destruct (storedSubjects w).
Qed.

(** What a read returns depends on the cloud branch only through its
    falling through. *)
Lemma load_fallthrough (userId : option string) (syncEnabled : option bool)
    (w : World) (c : Cloud) :
  afterFetch userId syncEnabled w = (None, withCloud c w) →
  (getSubjectsFromStorage userId syncEnabled w).1
  = (getSubjectsFromStorage None None w).1
  ∧ localStorage (getSubjectsFromStorage userId syncEnabled w).2
    = localStorage (getSubjectsFromStorage None None w).2.
Proof.
  intros Ha. rewrite !load_eq, Ha. unfold afterFetch at 1 2.
  rewrite cloudGuard_anonymous. simpl.
  destruct (browser w) eqn:Hb; [|done].
  rewrite !localRead_eq by done.
  change (storedSubjects (withCloud c w)) with (storedSubjects w).
  destruct (storedSubjects w); [|done]. split; [done|]. simpl.
  rewrite !save_eq.
  change (writable (withCloud c w) (JSON_stringify initializeSubjects))
    with (writable w (JSON_stringify initializeSubjects)).
  destruct (writable w (JSON_stringify initializeSubjects)); [|done].
  simpl. by rewrite !saved_localStorage.
Qed.

(** C3, amended. With the cloud guard open: a fetched non-empty array
    whose write-through does not throw is written to [localStorage] and
    returned; when the fetch throws, returns no array or an empty one, or
    the write-through throws, the read returns what the read without a
    user returns and leaves the same text in [localStorage]; and the read
    returns in every case, it never throws. *)
Theorem load_cloud (userId : option string) (syncEnabled : option bool)
    (w : World) (uid : string) (r : fetchResult) (c : Cloud)
    (Hguard : cloudGuard userId syncEnabled = Some uid)
    (Hfetch : getSubjectsFromCloud uid (cloud w) = (r, c)) :
  (∀ l, r = FetchArray l → l ≠ [] → writable w (JSON_stringify l) = true →
     getSubjectsFromStorage userId syncEnabled w
     = (Ret l, withItem (JSON_stringify l) (withCloud c w)))
  ∧ (r = FetchThrows ∨ r = FetchNull ∨ r = FetchOther ∨ r = FetchArray []
     ∨ (∃ l, r = FetchArray l ∧ writable w (JSON_stringify l) = false) →
     (getSubjectsFromStorage userId syncEnabled w).1
     = (getSubjectsFromStorage None None w).1
     ∧ localStorage (getSubjectsFromStorage userId syncEnabled w).2
       = localStorage (getSubjectsFromStorage None None w).2)
  ∧ (∃ subjects w',
       getSubjectsFromStorage userId syncEnabled w = (Ret subjects, w')).
Proof.
  split; [|split; [|apply load_returns]].
  - intros l -> Hl Hw. rewrite load_eq. unfold afterFetch.
    rewrite Hguard, Hfetch. simpl. rewrite Hw.
    rewrite bool_decide_true; [done|]. destruct l; [done|simpl; lia].
  - intros Hr. apply (load_fallthrough _ _ _ c).
    unfold afterFetch. rewrite Hguard, Hfetch.
    destruct Hr as [->|[->|[->|[->|(l & -> & Hw)]]]]; simpl; try done.
    rewrite Hw. by rewrite andb_false_r.
Qed.

(** *** deleteGradeFromSubject and addGradeToSubject *)

(** The list without its element at position [i], if there is one. *)
Definition removeAt {A : Type} (i : Z) (l : list A) : list A :=
  if (0 <=? i)%Z then delete (Z.to_nat i) l else l.

Lemma filterFrom_removeAt {A : Type} (i : Z) (l : list A) (k : nat) :
  filterFrom (λ _ j, negb (Z.of_nat j =? i)%Z) k l
  = if (i <? Z.of_nat k)%Z then l else delete (Z.to_nat i - k)%nat l.
Proof.
  revert k. induction l as [|x l IH]; intros k; simpl.
  - by destruct (i <? Z.of_nat k)%Z.
  - rewrite IH. clear IH.
    destruct (Z.eqb_spec (Z.of_nat k) i) as [<-|Hne]; simpl.
    + rewrite (proj2 (Z.ltb_lt _ _)) by lia.
      rewrite (proj2 (Z.ltb_ge _ _)) by lia.
      by replace (Z.to_nat (Z.of_nat k) - k)%nat with 0%nat by lia.
    + destruct (Z.ltb_spec i (Z.of_nat k)).
      * by rewrite (proj2 (Z.ltb_lt _ _)) by lia.
      * rewrite (proj2 (Z.ltb_ge _ _)) by lia.
        by replace (Z.to_nat i - k)%nat with (S (Z.to_nat i - S k)) by lia.
Qed.

(** The filter of [deleteGradeFromSubject] removes the position
    [gradeIndex] and nothing else. *)
Lemma Array_filter_removeAt {A : Type} (i : Z) (l : list A) :
  Array_filter (λ _ j, negb (Z.of_nat j =? i)%Z) l = removeAt i l.
Proof.
  unfold Array_filter, removeAt. rewrite filterFrom_removeAt.
  change (Z.of_nat 0) with 0%Z.
  destruct (Z.ltb_spec i 0), (Z.leb_spec 0 i); try lia; try done.
  by rewrite Nat.sub_0_r.
Qed.

Lemma removeAt_in_range {A : Type} (n : nat) (l : list A) :
  removeAt (Z.of_nat n) l = take n l ++ drop (S n) l.
Proof.
  unfold removeAt. rewrite (proj2 (Z.leb_le _ _)) by lia.
  by rewrite Nat2Z.id, delete_take_drop.
Qed.

Lemma removeAt_out_of_range {A : Type} (i : Z) (l : list A) :
  (i < 0 ∨ Z.of_nat (length l) ≤ i)%Z → removeAt i l = l.
Proof.
  intros Hi. unfold removeAt. destruct (Z.leb_spec 0 i); [|done].
  rewrite delete_take_drop, take_ge, drop_ge by lia. apply app_nil_r.
Qed.

Lemma try_catch_ret {A : Type} (m h : M A) (w w' : World) (a : A) :
  m w = (Ret a, w') → try_catch m h w = (Ret a, w').
Proof. unfold try_catch. by intros ->. Qed.

(** The subject that [findIndex] locates: the first one with the id. *)
Definition located (subjectid : string) (subjects : list Subject)
    (i : nat) (sub : Subject) : Prop :=
  subjects !! i = Some sub ∧ id sub = subjectid
  ∧ ∀ j y, subjects !! j = Some y → (j < i)%nat → id y ≠ subjectid.

(** The subject [sub] with the grades [gs] and their average. *)
Definition withGrades (sub : Subject) (gs : list Grade) : Subject :=
  mkSubject (id sub) (name sub) gs (Some (calculateAverage gs)).

Lemma delete_eq (subjectid : string) (gradeIndex : Z) (userId : option string)
    (syncEnabled : option bool) (w w1 : World) (subjects : list Subject) :
  getSubjectsFromStorage userId syncEnabled w = (Ret subjects, w1) →
  deleteGradeFromSubject subjectid gradeIndex userId syncEnabled w
  = match list_find (λ s, id s = subjectid) subjects with
    | None => (Ret false, w1)
    | Some (i, sub) =>
        match grades sub with
        | [] => (Ret true, w1)
        | _ :: _ =>
            saveSubjectsToStorage
              (<[i := withGrades sub (removeAt gradeIndex (grades sub))]> subjects)
              userId syncEnabled w1
        end
    end.
Proof.
  intros Hload. unfold deleteGradeFromSubject.
  unfold try_catch at 1. unfold bind at 1. rewrite Hload.
  destruct (list_find _ subjects) as [[i sub]|]; [|done].
  destruct (grades sub) as [|g gs] eqn:Hg; simpl; [done|].
  rewrite <- Hg, Array_filter_removeAt. unfold withGrades.
  destruct (save_returns
    (<[i := mkSubject (id sub) (name sub) (removeAt gradeIndex (grades sub))
             (Some (calculateAverage (removeAt gradeIndex (grades sub))))]> subjects)
    userId syncEnabled w1) as (b & w2 & Hs).
  by rewrite Hs.
Qed.

Lemma located_find (subjectid : string) (subjects : list Subject) (i : nat) (sub : Subject) :
  located subjectid subjects i sub ↔
  list_find (λ s, id s = subjectid) subjects = Some (i, sub).
Proof. unfold located. by rewrite list_find_Some. Qed.

(** C6. On the collection that the read returns, [deleteGradeFromSubject]
    returns [false] when no subject has the id; returns [true] and does
    nothing after the read when the located subject has no grades; and
    otherwise saves the collection in which that subject has lost the
    grade at position [gradeIndex] and has its average recomputed, the
    result being the result of that save: when the local write goes
    through, [true], with the new collection in [localStorage]. *)
Theorem deleteGrade_spec (subjectid : string) (gradeIndex : Z)
    (userId : option string) (syncEnabled : option bool)
    (w w1 : World) (subjects : list Subject)
    (Hload : getSubjectsFromStorage userId syncEnabled w = (Ret subjects, w1)) :
  (Forall (λ x, id x ≠ subjectid) subjects →
     deleteGradeFromSubject subjectid gradeIndex userId syncEnabled w = (Ret false, w1))
  ∧ (∀ i sub, located subjectid subjects i sub →
       (grades sub = [] →
          deleteGradeFromSubject subjectid gradeIndex userId syncEnabled w = (Ret true, w1))
       ∧ (grades sub ≠ [] →
          let updated :=
            <[i := withGrades sub (removeAt gradeIndex (grades sub))]> subjects in
          deleteGradeFromSubject subjectid gradeIndex userId syncEnabled w
          = saveSubjectsToStorage updated userId syncEnabled w1
          ∧ (writable w1 (JSON_stringify updated) = true →
               (deleteGradeFromSubject subjectid gradeIndex userId syncEnabled w).1
               = Ret true
               ∧ localStorage
                   (deleteGradeFromSubject subjectid gradeIndex userId syncEnabled w).2
                 = Some (JSON_stringify updated))
          ∧ (∀ n : nat, gradeIndex = Z.of_nat n →
               removeAt gradeIndex (grades sub)
               = take n (grades sub) ++ drop (S n) (grades sub)))).
Proof.
  rewrite (delete_eq _ _ _ _ _ _ _ Hload). split.
  - intros Hnone.
    by rewrite (proj2 (list_find_None (λ s, id s = subjectid) subjects) Hnone).
  - intros i sub Hloc. apply located_find in Hloc. rewrite Hloc. split.
    + by intros ->.
    + intros Hne. destruct (grades sub) as [|g gs] eqn:Hg; [done|].
      cbv zeta. split; [done|]. split.
      * intros Hw. rewrite save_eq, Hw. simpl. by rewrite saved_localStorage.
      * intros n ->. apply removeAt_in_range.
Qed.

(** C5, amended. With a located subject that has grades and a
    [gradeIndex] that is no position of them, [deleteGradeFromSubject]
    removes no grade: it saves the collection with that subject's
    average recomputed over the same grades and returns the result of the
    save, [true] when the local write goes through and [false] only when
    it throws. *)
Theorem deleteGrade_out_of_range (subjectid : string) (gradeIndex : Z)
    (userId : option string) (syncEnabled : option bool)
    (w w1 : World) (subjects : list Subject) (i : nat) (sub : Subject)
    (Hload : getSubjectsFromStorage userId syncEnabled w = (Ret subjects, w1))
    (Hloc : located subjectid subjects i sub)
    (Hgrades : grades sub ≠ [])
    (Hout : (gradeIndex < 0 ∨ Z.of_nat (length (grades sub)) ≤ gradeIndex)%Z) :
  let updated := <[i := withGrades sub (grades sub)]> subjects in
  deleteGradeFromSubject subjectid gradeIndex userId syncEnabled w
  = saveSubjectsToStorage updated userId syncEnabled w1
  ∧ (writable w1 (JSON_stringify updated) = true →
       (deleteGradeFromSubject subjectid gradeIndex userId syncEnabled w).1 = Ret true)
  ∧ (writable w1 (JSON_stringify updated) = false →
       deleteGradeFromSubject subjectid gradeIndex userId syncEnabled w = (Ret false, w1)).
Proof.
  cbv zeta. rewrite (delete_eq _ _ _ _ _ _ _ Hload).
  apply located_find in Hloc. rewrite Hloc.
  rewrite (removeAt_out_of_range _ _ Hout).
  destruct (grades sub) as [|g gs] eqn:Hg; [done|].
  split; [done|]. rewrite save_eq. split; by intros ->.
Qed.

(** C7. When no subject of the collection that the read returns has the
    id, [addGradeToSubject] returns [false] and does nothing after the
    read; and a read that does not go through the cloud and finds a
    non-empty array in [localStorage] changes nothing either. *)
Theorem addGrade_unknown_subject (subjectid : string) (grade : Grade)
    (userId : option string) (syncEnabled : option bool)
    (w w1 : World) (subjects : list Subject)
    (Hload : getSubjectsFromStorage userId syncEnabled w = (Ret subjects, w1))
    (Hnone : Forall (λ x, id x ≠ subjectid) subjects) :
  addGradeToSubject subjectid grade userId syncEnabled w = (Ret false, w1)
  ∧ (cloudGuard userId syncEnabled = None → storedSubjects w ≠ [] → w1 = w).
Proof.
  split.
  - unfold addGradeToSubject, try_catch, bind. rewrite Hload.
    by rewrite (proj2 (list_find_None (λ s, id s = subjectid) subjects) Hnone).
  - intros Hg Hs. rewrite load_eq in Hload. unfold afterFetch in Hload.
    rewrite Hg in Hload. destruct (browser w) eqn:Hb; [|congruence].
    rewrite localRead_eq in Hload by done.
    destruct (storedSubjects w); [done|congruence].
Qed.

(** *** Saving, then reading *)

(** A subject that the migration leaves as it is: every grade has a
    weight, and the average of a subject with grades is up to date. *)
Definition settled (s : Subject) : Prop :=
  Forall (λ g, is_Some (weight g)) (grades s)
  ∧ (grades s ≠ [] → averageGrade s = Some (calculateAverage (grades s))).

Lemma migrateGrade_keeps (g : Grade) :
  value (migrateGrade g) = value g
  ∧ type (migrateGrade g) = type g
  ∧ date (migrateGrade g) = date g
  ∧ weight (migrateGrade g)
    = Some (match weight g with
            | Some x => x
            | None => if String.eqb (type g) "Test" then two else one
            end).
Proof. unfold migrateGrade. by destruct (weight g) eqn:Hw. Qed.

Lemma migrateSubject_keeps (s : Subject) :
  id (migrateSubject s) = id s
  ∧ name (migrateSubject s) = name s
  ∧ grades (migrateSubject s) = map migrateGrade (grades s)
  ∧ averageGrade (migrateSubject s)
    = match grades s with
      | [] => averageGrade s
      | _ :: _ => Some (calculateAverage (map migrateGrade (grades s)))
      end.
Proof. unfold migrateSubject. by destruct (grades s) eqn:Hg; simpl; rewrite ?Hg. Qed.

Lemma migrateGrade_weighted (g : Grade) : is_Some (weight g) → migrateGrade g = g.
Proof. intros [x Hx]. unfold migrateGrade. by rewrite Hx. Qed.

Lemma migrateSubject_settled (s : Subject) : settled s → migrateSubject s = s.
Proof.
  intros [Hw Ha]. unfold migrateSubject.
  destruct (grades s) as [|g gs] eqn:Hg; [done|].
  assert (Hm : map migrateGrade (g :: gs) = g :: gs).
  { rewrite <- (map_id (g :: gs)) at 2. apply map_ext_Forall.
    eapply Forall_impl; [|exact Hw]. intros x Hx. by apply migrateGrade_weighted. }
  rewrite Hm. destruct s as [i n gr av]. simpl in *. subst gr.
  by rewrite Ha.
Qed.

(** C8, amended. With the cloud features off, a non-empty collection of
    finite numbers whose save returned [true] is read back as its
    migration: ids, names
    and the value, type and date of every grade as saved, a missing
    weight filled in by type, and the average of every subject with
    grades set to the recomputed one.  A collection of settled subjects
    is read back as it was saved. *)
Theorem save_then_load (subjects : list Subject)
    (userId userId' : option string) (syncEnabled syncEnabled' : option bool)
    (w w1 : World)
    (Hoff : ENABLE_CLOUD_FEATURES = false)
    (Hne : subjects ≠ [])
    (Hfinite : Forall finiteSubject subjects)
    (Hsave : saveSubjectsToStorage subjects userId syncEnabled w = (Ret true, w1)) :
  (getSubjectsFromStorage userId' syncEnabled' w1).1
  = Ret (map migrateSubject subjects)
  ∧ (Forall settled subjects →
       (getSubjectsFromStorage userId' syncEnabled' w1).1 = Ret subjects).
Proof.
  assert (Hload : getSubjectsFromStorage userId' syncEnabled' w1
                  = (Ret (map migrateSubject subjects), w1)).
  { rewrite save_eq in Hsave.
    destruct (writable w (JSON_stringify subjects)) eqn:Hw; [|congruence].
    injection Hsave as <-.
    assert (Hst : storedSubjects (saved subjects userId syncEnabled w) = subjects).
    { unfold storedSubjects. by rewrite saved_localStorage. }
    rewrite load_stored.
    - by rewrite Hst, migrationPass_map.
    - by apply cloudGuard_disabled.
    - unfold saved, pushed. rewrite (cloudGuard_disabled _ _ Hoff). simpl.
      unfold writable in Hw. by destruct (browser w).
    - by rewrite Hst. }
  rewrite Hload. simpl. split; [done|].
  intros Hs. f_equal.
  rewrite <- (map_id subjects) at 2. apply map_ext_Forall.
  eapply Forall_impl; [|exact Hs]. intros x Hx. by apply migrateSubject_settled.
Qed.

(** ** More on the weighted average *)





(** X2. A finite average has at most two decimals: it is a whole number of
    hundredths. *)
Theorem calculateAverage_hundredths (gs : list Grade) (q : Qc)
    (Hq : calculateAverage gs = Fin q) :
  ∃ n : Z, q = Q2Qc (n # 100).
Proof.
  rewrite calculateAverage_weightedMean in Hq. unfold weightedMean in Hq.
  destruct gs as [|g gs].
  - exists 0%Z. injection Hq as <-. by apply Qc_is_canon.
  - destruct (div _ _) as [a| | |]; simpl in Hq; try discriminate.
    injection Hq as <-. unfold round2.
    case_match; [eauto| |eauto].
    exists (- Qfloor (Qabs a * 100 + (1 # 2)))%Z. reflexivity.
Qed.

(** *** The average stays within the scale *)









(** ** More on reading *)

Lemma afterFetch_Some (userId : option string) (syncEnabled : option bool)
    (w w1 : World) (l : list Subject) :
  afterFetch userId syncEnabled w = (Some l, w1) → l ≠ [].
Proof.
  unfold afterFetch. destruct (cloudGuard _ _); [|done].
  destruct (getSubjectsFromCloud _ _) as [r c].
  destruct r as [| | |l']; simpl; try done.
  case_bool_decide; simpl; [|done].
  destruct (writable w (JSON_stringify l')); [|done].
  intros [= <- _]. destruct l'; [simpl in *; lia|done].
Qed.

Lemma afterFetch_closed (userId : option string) (syncEnabled : option bool) (w : World) :
  cloudGuard userId syncEnabled = None → afterFetch userId syncEnabled w = (None, w).
Proof. unfold afterFetch. by intros ->. Qed.

Lemma migrationPass_nonempty (l : list Subject) : l ≠ [] → migrationPass l ≠ [].
Proof. rewrite migrationPass_map. by destruct l. Qed.

(** X4. What a read returns is never the empty collection. *)
Theorem load_nonempty (userId : option string) (syncEnabled : option bool)
    (w w' : World) (subjects : list Subject)
    (Hload : getSubjectsFromStorage userId syncEnabled w = (Ret subjects, w')) :
  subjects ≠ [].
Proof.
  rewrite load_eq in Hload.
  destruct (afterFetch userId syncEnabled w) as [[l|] w1] eqn:Ha.
  - injection Hload as <- _. by eapply afterFetch_Some.
  - destruct (browser w1) eqn:Hb; [|by injection Hload as <- _].
    rewrite localRead_eq in Hload by done.
    destruct (storedSubjects w1) as [|x l] eqn:Hs.
    + by injection Hload as <- _.
    + injection Hload as <- _. by apply migrationPass_nonempty.
Qed.

(** X5. Outside a browser every read returns the five default subjects,
    whatever the cloud returns, and leaves [localStorage] and the events
    as they were. *)
Theorem load_outside_browser (userId : option string) (syncEnabled : option bool)
    (w : World)
    (Hb : browser w = false) :
  ∃ w', getSubjectsFromStorage userId syncEnabled w = (Ret initializeSubjects, w')
        ∧ localStorage w' = localStorage w ∧ events w' = events w.
Proof.
  rewrite load_eq. unfold afterFetch.
  destruct (cloudGuard userId syncEnabled) as [uid|].
  - destruct (getSubjectsFromCloud uid (cloud w)) as [r c].
    assert (Hd : cloudDelivers w r = None).
    { unfold cloudDelivers, writable. rewrite Hb.
      destruct r; try done. by rewrite andb_false_r. }
    rewrite Hd. simpl. rewrite Hb. eauto.
  - rewrite Hb. eauto.
Qed.

Lemma Forall_map_all {A B : Type} (P : B → Prop) (f : A → B) (l : list A) :
  (∀ x, P (f x)) → Forall P (map f l).
Proof. intros H. induction l; constructor; auto. Qed.

Lemma migrateSubject_is_settled (s : Subject) : settled (migrateSubject s).
Proof.
  destruct (migrateSubject_keeps s) as (_ & _ & Hg & Ha).
  split.
  - rewrite Hg. apply Forall_map_all. intros g0.
    destruct (migrateGrade_keeps g0) as (_ & _ & _ & Hw). by rewrite Hw.
  - rewrite Hg, Ha. by destruct (grades s).
Qed.

Lemma initializeSubjects_settled : Forall settled initializeSubjects.
Proof. repeat constructor; done. Qed.

(** X6. A read that does not go through the cloud returns settled subjects:
    every grade has a weight, and the average of every subject with
    grades is the weighted average of those grades. *)
Theorem load_settled (userId : option string) (syncEnabled : option bool)
    (w w' : World) (subjects : list Subject)
    (Hguard : cloudGuard userId syncEnabled = None)
    (Hload : getSubjectsFromStorage userId syncEnabled w = (Ret subjects, w')) :
  Forall settled subjects.
Proof.
  rewrite load_eq, afterFetch_closed in Hload by done.
  destruct (browser w) eqn:Hb.
  - rewrite localRead_eq in Hload by done.
    destruct (storedSubjects w) as [|x l].
    + injection Hload as <- _. apply initializeSubjects_settled.
    + injection Hload as <- _. rewrite migrationPass_map.
      apply Forall_map_all, migrateSubject_is_settled.
  - injection Hload as <- _. apply initializeSubjects_settled.
Qed.

Lemma saved_closed (subjects : list Subject) (userId : option string)
    (syncEnabled : option bool) (w : World) :
  cloudGuard userId syncEnabled = None →
  saved subjects userId syncEnabled w
  = withEvent subjectsUpdated (withItem (JSON_stringify subjects) w).
Proof. unfold saved, pushed. by intros ->. Qed.

(** X7. Without the cloud, reading again returns what the first read
    returned. *)
Theorem load_repeatable (userId : option string) (syncEnabled : option bool)
    (w : World)
    (Hguard : cloudGuard userId syncEnabled = None) :
  (getSubjectsFromStorage userId syncEnabled
     (getSubjectsFromStorage userId syncEnabled w).2).1
  = (getSubjectsFromStorage userId syncEnabled w).1.
Proof.
  rewrite (load_eq _ _ w), afterFetch_closed by done.
  destruct (browser w) eqn:Hb.
  - rewrite localRead_eq by done.
    destruct (storedSubjects w) as [|x l] eqn:Hs.
    + rewrite save_eq.
      destruct (writable w (JSON_stringify initializeSubjects)) eqn:Hw; simpl.
      * rewrite saved_closed by done. by rewrite load_stored.
      * rewrite load_eq, afterFetch_closed by done. rewrite Hb.
        rewrite localRead_eq by done. by rewrite Hs.
    + simpl. rewrite load_stored; [by rewrite Hs|done|done|by rewrite Hs].
  - simpl. rewrite load_eq, afterFetch_closed by done. by rewrite Hb.
Qed.

(** ** The other operations *)

(** A read without a user leaves the cloud peer alone. *)
Lemma load_anonymous_cloud (w w1 : World) (subjects : list Subject) :
  getSubjectsFromStorage None None w = (Ret subjects, w1) → cloud w1 = cloud w.
Proof.
  rewrite load_eq, afterFetch_closed by apply cloudGuard_anonymous.
  destruct (browser w) eqn:Hb; [|by intros [= _ <-]].
  rewrite localRead_eq by done.
  destruct (storedSubjects w); [|by intros [= _ <-]].
  rewrite save_eq. destruct (writable _ _); simpl; [|by intros [= _ <-]].
  rewrite saved_closed by apply cloudGuard_anonymous. by intros [= _ <-].
Qed.

(** X8. [getSubjectById] reads without a user, so it never calls the cloud
    peer, even for a user who syncs; it never throws; it returns the
    first subject with the id in what that read returns, and [null] when
    there is none. *)
Theorem getSubjectById_spec (subjectId : string) (w w1 : World)
    (subjects : list Subject)
    (Hload : getSubjectsFromStorage None None w = (Ret subjects, w1)) :
  cloud w1 = cloud w
  ∧ (Forall (λ s, id s ≠ subjectId) subjects
     ∧ getSubjectById subjectId w = (Ret None, w1)
     ∨ ∃ i sub, located subjectId subjects i sub
                ∧ getSubjectById subjectId w = (Ret (Some sub), w1)).
Proof.
  split; [by eapply load_anonymous_cloud|].
  unfold getSubjectById, try_catch, bind. rewrite Hload.
  destruct (list_find (λ s, id s = subjectId) subjects) as [[i sub]|] eqn:Hf.
  - right. exists i, sub. split; [by apply located_find|done].
  - left. split; [|done].
    exact (proj1 (list_find_None (λ s, id s = subjectId) subjects) Hf).
Qed.

(** X9. [clearAllGradesData] has no guard: outside a browser it throws.  In a
    browser it removes the item, and the next read that does not go
    through the cloud returns the five default subjects and, when the
    write goes through, stores them. *)
Theorem clear_then_load (userId : option string) (syncEnabled : option bool)
    (w : World)
    (Hguard : cloudGuard userId syncEnabled = None) :
  (browser w = false → clearAllGradesData w = (Throw, w))
  ∧ (browser w = true →
     ∃ w0, clearAllGradesData w = (Ret (), w0)
           ∧ localStorage w0 = None
           ∧ (getSubjectsFromStorage userId syncEnabled w0).1
             = Ret initializeSubjects
           ∧ (quotaExceeded w (JSON_stringify initializeSubjects) = false →
              localStorage (getSubjectsFromStorage userId syncEnabled w0).2
              = Some (JSON_stringify initializeSubjects))).
Proof.
  unfold clearAllGradesData, localStorage_removeItem. split; intros Hb; rewrite Hb.
  - done.
  - eexists. split; [done|]. split; [done|].
    rewrite load_eq, afterFetch_closed by done. simpl.
    rewrite localRead_eq by done. unfold storedSubjects. simpl.
    split; [done|]. intros Hq. rewrite save_eq. unfold writable. simpl.
    rewrite Hq. simpl. by rewrite saved_localStorage.
Qed.

Lemma located_lt (subjectid : string) (subjects : list Subject) (i : nat) (sub : Subject) :
  located subjectid subjects i sub → (i < length subjects)%nat.
Proof. intros (H & _). by eapply lookup_lt_Some. Qed.

(** Replacing the located subject by one with other grades keeps the
    ids and names of the collection, in their order. *)
Lemma insert_withGrades_ids (subjectid : string) (subjects : list Subject)
    (i : nat) (sub : Subject) (gs : list Grade) :
  located subjectid subjects i sub →
  map id (<[i := withGrades sub gs]> subjects) = map id subjects
  ∧ map name (<[i := withGrades sub gs]> subjects) = map name subjects.
Proof.
  intros (Hi & _ & _).
  split.
  - change (map id (<[i := withGrades sub gs]> subjects))
      with (id <$> <[i := withGrades sub gs]> subjects).
    rewrite list_fmap_insert. apply list_insert_id.
    by rewrite list_lookup_fmap, Hi.
  - change (map name (<[i := withGrades sub gs]> subjects))
      with (name <$> <[i := withGrades sub gs]> subjects).
    rewrite list_fmap_insert. apply list_insert_id.
    by rewrite list_lookup_fmap, Hi.
Qed.

Lemma add_eq (subjectid : string) (grade : Grade) (userId : option string)
    (syncEnabled : option bool) (w w1 : World) (subjects : list Subject)
    (i : nat) (sub : Subject) :
  getSubjectsFromStorage userId syncEnabled w = (Ret subjects, w1) →
  located subjectid subjects i sub →
  addGradeToSubject subjectid grade userId syncEnabled w
  = saveSubjectsToStorage
      (<[i := withGrades sub (grades sub ++ [grade])]> subjects)
      userId syncEnabled w1.
Proof.
  intros Hload Hloc. apply located_find in Hloc.
  unfold addGradeToSubject. unfold try_catch at 1. unfold bind at 1.
  rewrite Hload, Hloc. unfold withGrades, bind.
  destruct (save_returns
    (<[i := mkSubject (id sub) (name sub) (grades sub ++ [grade])
             (Some (calculateAverage (grades sub ++ [grade])))]> subjects)
    userId syncEnabled w1) as (b & w2 & Hs).
  by rewrite Hs.
Qed.

(** X10. With the subject located in what the read returns, [addGradeToSubject]
    saves the collection in which that subject has the grade appended and
    its average recomputed over all its grades, every other subject, and
    the ids and names of all, being as read; the result is the result of
    that save, [true] with the new collection in [localStorage] when the
    local write goes through. *)
Theorem addGrade_spec (subjectid : string) (grade : Grade)
    (userId : option string) (syncEnabled : option bool)
    (w w1 : World) (subjects : list Subject) (i : nat) (sub : Subject)
    (Hload : getSubjectsFromStorage userId syncEnabled w = (Ret subjects, w1))
    (Hloc : located subjectid subjects i sub) :
  let updated := <[i := withGrades sub (grades sub ++ [grade])]> subjects in
  addGradeToSubject subjectid grade userId syncEnabled w
  = saveSubjectsToStorage updated userId syncEnabled w1
  ∧ map id updated = map id subjects
  ∧ map name updated = map name subjects
  ∧ (∀ j, j ≠ i → updated !! j = subjects !! j)
  ∧ (writable w1 (JSON_stringify updated) = true →
       (addGradeToSubject subjectid grade userId syncEnabled w).1 = Ret true
       ∧ localStorage (addGradeToSubject subjectid grade userId syncEnabled w).2
         = Some (JSON_stringify updated))
  ∧ (writable w1 (JSON_stringify updated) = false →
       addGradeToSubject subjectid grade userId syncEnabled w = (Ret false, w1)).
Proof.
  cbv zeta. rewrite (add_eq _ _ _ _ _ _ _ _ _ Hload Hloc).
  destruct (insert_withGrades_ids _ _ _ _ (grades sub ++ [grade]) Hloc) as [Hid Hname].
  split; [done|]. split; [done|]. split; [done|]. split.
  - intros j Hj. by apply list_lookup_insert_ne.
  - rewrite save_eq. split; intros ->; simpl; [|done].
    by rewrite saved_localStorage.
Qed.

Lemma located_fmap_insert (subjectid : string) (subjects : list Subject)
    (i : nat) (sub : Subject) (gs : list Grade) :
  located subjectid subjects i sub →
  located subjectid
    (map migrateSubject (<[i := withGrades sub gs]> subjects))
    i (migrateSubject (withGrades sub gs)).
Proof.
  intros Hloc. pose proof (located_lt _ _ _ _ Hloc) as Hlt.
  destruct Hloc as (Hi & Hid & Hfirst).
  assert (Hkeep : ∀ s, id (migrateSubject s) = id s)
    by (intros s; apply migrateSubject_keeps).
  split; [|split].
  - change (map migrateSubject (<[i := withGrades sub gs]> subjects))
      with (migrateSubject <$> <[i := withGrades sub gs]> subjects).
    by rewrite list_lookup_fmap, list_lookup_insert_eq.
  - by rewrite Hkeep.
  - intros j y Hj Hji.
    change (map migrateSubject (<[i := withGrades sub gs]> subjects))
      with (migrateSubject <$> <[i := withGrades sub gs]> subjects) in Hj.
    rewrite list_lookup_fmap, list_lookup_insert_ne in Hj by lia.
    destruct (subjects !! j) as [y0|] eqn:Hy0; [|done].
    injection Hj as <-. rewrite Hkeep. by eapply Hfirst.
Qed.


(** *** ensureAllSubjectsExist *)

Lemma filter_nil_Forall {A : Type} (P : A → Prop) `{!∀ x, Decision (P x)} (l : list A) :
  filter P l = [] ↔ Forall (λ x, ¬ P x) l.
Proof.
  induction l as [|x l IH]; [done|].
  rewrite filter_cons. case_decide.
  - split; [done|]. intros H'. by inversion H'.
  - rewrite IH. split; [by constructor|]. intros H'. by inversion H'.
Qed.

Lemma NoDup_map_filter {A B : Type} (f : A → B) (P : A → Prop)
    `{!∀ x, Decision (P x)} (l : list A) :
  NoDup (map f l) → NoDup (map f (filter P l)).
Proof.
  induction l as [|x l IH]; [done|].
  simpl. intros [Hx Hl]%list.NoDup_cons. rewrite filter_cons. case_decide; [|auto].
  simpl. apply list.NoDup_cons. split; [|auto].
  intros Hin. apply Hx.
  change (f x ∈ f <$> filter P l) in Hin. change (f x ∈ f <$> l).
  apply list_elem_of_fmap in Hin as (y & -> & Hy).
  apply list_elem_of_filter in Hy as [_ Hy].
  apply list_elem_of_fmap. eauto.
Qed.

Lemma initializeSubjects_ids : NoDup (map id initializeSubjects).
Proof.
  apply (bool_decide_unpack (NoDup (map id initializeSubjects))).
  vm_compute. exact I.
Qed.

Lemma ensure_default_ids (subjects : list Subject) (d : Subject) :
  d ∈ initializeSubjects → id d ∈ map id (ensureAllSubjectsExist subjects).
Proof.
  intros Hd. unfold ensureAllSubjectsExist. rewrite map_app, elem_of_app.
  destruct (decide (id d ∈ map id subjects)) as [Hin|Hout]; [by left|right].
  change (id d ∈ id <$> filter (λ s, id s ∉ map id subjects) initializeSubjects).
  apply list_elem_of_fmap. exists d. split; [done|].
  by apply list_elem_of_filter.
Qed.

Lemma ensure_fixed_iff (subjects : list Subject) :
  ensureAllSubjectsExist subjects = subjects
  ↔ ∀ d, d ∈ initializeSubjects → id d ∈ map id subjects.
Proof.
  unfold ensureAllSubjectsExist. cbv zeta.
  set (m := filter (λ s, id s ∉ map id subjects) initializeSubjects).
  split.
  - intros H d Hd.
    assert (Hm : m = []).
    { apply (app_inv_head subjects). by rewrite app_nil_r. }
    destruct (decide (id d ∈ map id subjects)) as [Hin|Hout]; [done|].
    by destruct (filter_nil_not_elem_of _ _ d Hm Hout).
  - intros H.
    assert (Hm : m = []).
    { apply filter_nil_Forall, Forall_forall. intros d Hd Hout.
      apply Hout, H. by apply list_elem_of_In. }
    by rewrite Hm, app_nil_r.
Qed.

(** X13. The subjects come first, unchanged, and what follows makes every
    default id present: the defaults whose id was missing, in their
    order. *)
Theorem ensureAllSubjectsExist_covers (subjects : list Subject) :
  ∃ missing,
    ensureAllSubjectsExist subjects = subjects ++ missing
    ∧ (∀ d, d ∈ missing ↔ d ∈ initializeSubjects ∧ id d ∉ map id subjects)
    ∧ ∀ d, d ∈ initializeSubjects → id d ∈ map id (ensureAllSubjectsExist subjects).
Proof.
  eexists. split; [reflexivity|]. split.
  - intros d. rewrite list_elem_of_filter. tauto.
  - apply ensure_default_ids.
Qed.

(** X14. [ensureAllSubjectsExist] returns its argument exactly when every
    default id is already there. *)
Theorem ensureAllSubjectsExist_noop (subjects : list Subject) :
  ensureAllSubjectsExist subjects = subjects
  ↔ ∀ d, d ∈ initializeSubjects → id d ∈ map id subjects.
Proof. apply ensure_fixed_iff. Qed.

(** X15. Applying [ensureAllSubjectsExist] a second time adds nothing. *)
Theorem ensureAllSubjectsExist_idempotent (subjects : list Subject) :
  ensureAllSubjectsExist (ensureAllSubjectsExist subjects)
  = ensureAllSubjectsExist subjects.
Proof. apply ensure_fixed_iff. apply ensure_default_ids. Qed.

(** X16. If no two subjects share an id, the same holds of the result. *)
Theorem ensureAllSubjectsExist_unique (subjects : list Subject)
    (Hids : NoDup (map id subjects)) :
  NoDup (map id (ensureAllSubjectsExist subjects)).
Proof.
  unfold ensureAllSubjectsExist. rewrite map_app. apply list.NoDup_app.
  split; [done|]. split.
  - intros x Hx Hin.
    change (x ∈ id <$> filter (λ s, id s ∉ map id subjects) initializeSubjects) in Hin.
    apply list_elem_of_fmap in Hin as (d & -> & Hd).
    apply list_elem_of_filter in Hd as [Hout _]. by apply Hout.
  - apply NoDup_map_filter, initializeSubjects_ids.
Qed.

(** *** addNewSubject *)

(** The id that [addNewSubject] derives from a name. *)
Definition subjectIdOf (name : string) : string :=
  String_replace_whitespace (String_toLowerCase name).

Lemma addNew_eq (name : string) (userId : option string)
    (syncEnabled : option bool) (w w1 : World) (subjects : list Subject) :
  String_trim name ≠ EmptyString →
  getSubjectsFromStorage userId syncEnabled w = (Ret subjects, w1) →
  addNewSubject name userId syncEnabled w
  = if bool_decide (Exists (λ s, id s = subjectIdOf name) subjects)
    then (Ret false, w1)
    else saveSubjectsToStorage
           (subjects ++ [mkSubject (subjectIdOf name) name [] None])
           userId syncEnabled w1.
Proof.
  intros Hname Hload. unfold addNewSubject.
  destruct (String.eqb_spec (String_trim name) EmptyString) as [|_]; [done|].
  unfold try_catch at 1. unfold bind at 1. rewrite Hload.
  fold (subjectIdOf name). case_bool_decide; [done|].
  destruct (save_returns (subjects ++ [mkSubject (subjectIdOf name) name [] None])
              userId syncEnabled w1) as (b & w2 & Hs).
  by rewrite Hs.
Qed.

(** X17. The two refusals of [addNewSubject]: a name that trims to the
    empty string is refused before anything is read, the world untouched;
    a name whose derived id a subject of the collection read already has
    is refused with nothing done after the read. *)
Theorem addNewSubject_refused (name : string) (userId : option string)
    (syncEnabled : option bool) (w w1 : World) (subjects : list Subject)
    (Hload : getSubjectsFromStorage userId syncEnabled w = (Ret subjects, w1)) :
  (String_trim name = EmptyString →
     addNewSubject name userId syncEnabled w = (Ret false, w))
  ∧ (String_trim name ≠ EmptyString →
     Exists (λ s, id s = subjectIdOf name) subjects →
     addNewSubject name userId syncEnabled w = (Ret false, w1)).
Proof.
  split.
  - intros Hblank. unfold addNewSubject, try_catch. by rewrite Hblank.
  - intros Hname Hdup. rewrite (addNew_eq _ _ _ _ _ _ Hname Hload).
    by rewrite bool_decide_true.
Qed.

(** X18. When the derived id is new, [addNewSubject] saves the collection with
    a subject of that id, the name as given and no grades appended at the
    end, and returns the result of the save; ids that were distinct stay
    distinct. *)
Theorem addNewSubject_fresh (name : string) (userId : option string)
    (syncEnabled : option bool) (w w1 : World) (subjects : list Subject)
    (Hname : String_trim name ≠ EmptyString)
    (Hload : getSubjectsFromStorage userId syncEnabled w = (Ret subjects, w1))
    (Hfresh : Forall (λ s, id s ≠ subjectIdOf name) subjects) :
  let updated := subjects ++ [mkSubject (subjectIdOf name) name [] None] in
  addNewSubject name userId syncEnabled w
  = saveSubjectsToStorage updated userId syncEnabled w1
  ∧ (writable w1 (JSON_stringify updated) = true →
       (addNewSubject name userId syncEnabled w).1 = Ret true
       ∧ localStorage (addNewSubject name userId syncEnabled w).2
         = Some (JSON_stringify updated))
  ∧ (NoDup (map id subjects) → NoDup (map id updated)).
Proof.
  cbv zeta. rewrite (addNew_eq _ _ _ _ _ _ Hname Hload).
  rewrite bool_decide_false.
  2:{ intros Hex. apply Exists_exists in Hex as (s & Hin & Hs).
      rewrite Forall_forall in Hfresh. by apply (Hfresh s). }
  split; [done|]. split.
  - intros Hw. rewrite save_eq, Hw. simpl. by rewrite saved_localStorage.
  - intros Hids. rewrite map_app. apply list.NoDup_app. split; [done|]. split.
    + intros x Hx Hin. simpl in Hin. apply list_elem_of_singleton in Hin as ->.
      change (subjectIdOf name ∈ id <$> subjects) in Hx.
      apply list_elem_of_fmap in Hx as (s & Hs & Hin).
      rewrite Forall_forall in Hfresh. apply (Hfresh s); [|done].
      by apply list_elem_of_In.
    + simpl. apply NoDup_singleton.
Qed.

(** X19. Adding the same name again is refused: without the cloud, after an
    [addNewSubject] that returned [true] the same call returns [false]
    and leaves the world as it is. *)
Theorem addNewSubject_twice (name : string) (userId : option string)
    (syncEnabled : option bool) (w w2 : World)
    (Hguard : cloudGuard userId syncEnabled = None)
    (Hfirst : addNewSubject name userId syncEnabled w = (Ret true, w2)) :
  addNewSubject name userId syncEnabled w2 = (Ret false, w2).
Proof.
  destruct (String.eqb_spec (String_trim name) EmptyString) as [Hblank|Hname].
  { unfold addNewSubject, try_catch in Hfirst. by rewrite Hblank in Hfirst. }
  destruct (load_returns userId syncEnabled w) as (subjects & w1 & Hload).
  rewrite (addNew_eq _ _ _ _ _ _ Hname Hload) in Hfirst.
  case_bool_decide; [done|]. rewrite save_eq in Hfirst.
  set (updated := subjects ++ [mkSubject (subjectIdOf name) name [] None]) in *.
  destruct (writable w1 (JSON_stringify updated)) eqn:Hw; [|done].
  injection Hfirst as <-. rewrite saved_closed by done.
  set (w3 := withEvent subjectsUpdated (withItem (JSON_stringify updated) w1)).
  assert (Hload3 : getSubjectsFromStorage userId syncEnabled w3
                   = (Ret (migrationPass updated), w3)).
  { apply load_stored; [done| |by destruct subjects].
    unfold writable in Hw. by apply andb_true_iff in Hw as [Hw _]. }
  rewrite (addNew_eq _ _ _ _ _ _ Hname Hload3). rewrite bool_decide_true; [done|].
  rewrite migrationPass_map. apply Exists_exists.
  exists (migrateSubject (mkSubject (subjectIdOf name) name [] None)).
  split; [|done]. apply in_map, in_or_app. right. by left.
Qed.

(** X12. Adding a grade and deleting it again: without the cloud, after an
    [addGradeToSubject] that returned [true] on a subject that had grades,
    deleting the position after its former grades saves the collection as
    a read would have returned it before the two calls, migrated. *)
Theorem addGrade_then_deleteGrade (subjectid : string) (grade : Grade)
    (userId : option string) (syncEnabled : option bool)
    (w w1 w2 : World) (subjects : list Subject) (i : nat) (sub : Subject)
    (Hguard : cloudGuard userId syncEnabled = None)
    (Hload : getSubjectsFromStorage userId syncEnabled w = (Ret subjects, w1))
    (Hloc : located subjectid subjects i sub)
    (Hgrades : grades sub ≠ [])
    (Hadd : addGradeToSubject subjectid grade userId syncEnabled w = (Ret true, w2)) :
  deleteGradeFromSubject subjectid (Z.of_nat (length (grades sub)))
    userId syncEnabled w2
  = saveSubjectsToStorage (map migrateSubject subjects) userId syncEnabled w2.
Proof.
  rewrite (add_eq _ _ _ _ _ _ _ _ _ Hload Hloc), save_eq in Hadd.
  set (updated := <[i := withGrades sub (grades sub ++ [grade])]> subjects) in *.
  destruct (writable w1 (JSON_stringify updated)) eqn:Hw; [|done].
  injection Hadd as <-. rewrite saved_closed by done.
  set (w3 := withEvent subjectsUpdated (withItem (JSON_stringify updated) w1)).
  pose proof (located_lt _ _ _ _ Hloc) as Hlt.
  assert (Hload3 : getSubjectsFromStorage userId syncEnabled w3
                   = (Ret (migrationPass updated), w3)).
  { apply load_stored; [done| |].
    - unfold writable in Hw. by apply andb_true_iff in Hw as [Hw _].
    - unfold storedSubjects. simpl. intros E. apply (f_equal length) in E.
      unfold updated in E. rewrite length_insert in E. simpl in E. lia. }
  rewrite migrationPass_map in Hload3.
  rewrite (delete_eq _ _ _ _ _ _ _ Hload3).
  pose proof (located_fmap_insert _ _ _ _ (grades sub ++ [grade]) Hloc) as Hl.
  apply located_find in Hl. fold updated in Hl. rewrite Hl.
  assert (Hm : grades (migrateSubject (withGrades sub (grades sub ++ [grade])))
               = map migrateGrade (grades sub) ++ [migrateGrade grade]).
  { destruct (migrateSubject_keeps (withGrades sub (grades sub ++ [grade])))
      as (_ & _ & Hg & _). rewrite Hg. simpl. by rewrite map_app. }
  rewrite Hm.
  destruct (map migrateGrade (grades sub) ++ [migrateGrade grade]) eqn:Hcons.
  { by destruct (map migrateGrade (grades sub)). }
  rewrite <- Hcons. clear Hcons. f_equal.
  rewrite removeAt_in_range.
  rewrite <- (length_map migrateGrade (grades sub)) at 1 2.
  rewrite take_app_length, drop_ge, app_nil_r
    by (rewrite length_app; simpl; lia).
  assert (Hs : withGrades (migrateSubject (withGrades sub (grades sub ++ [grade])))
                 (map migrateGrade (grades sub))
               = migrateSubject sub).
  { unfold withGrades at 1.
    destruct (migrateSubject_keeps (withGrades sub (grades sub ++ [grade])))
      as (Hid & Hnm & _ & _).
    rewrite Hid, Hnm. simpl. unfold migrateSubject. by destruct (grades sub). }
  rewrite Hs. unfold updated.
  change (map migrateSubject (<[i := withGrades sub (grades sub ++ [grade])]> subjects))
    with (migrateSubject <$> <[i := withGrades sub (grades sub ++ [grade])]> subjects).
  rewrite list_fmap_insert, list_insert_insert_eq.
  apply list_insert_id. destruct Hloc as (Hi & _).
  by rewrite list_lookup_fmap, Hi.
Qed.

(** *** getGradeColor *)

Lemma leb_trans (x y z : number) : leb x y = true → leb y z = true → leb x z = true.
Proof.
  destruct x as [a| | |], y as [b| | |], z as [c| | |]; simpl; try done.
  intros Hab%bool_decide_eq_true Hbc%bool_decide_eq_true.
  apply bool_decide_eq_true. by eapply Qcle_trans.
Qed.

(** How bad a colour is: green, yellow, orange, red. *)
Definition severity (colour : string) : nat :=
  if String.eqb colour "bg-green-500" then 0
  else if String.eqb colour "bg-yellow-500" then 1
  else if String.eqb colour "bg-orange-500" then 2
  else 3.

(** X20. The colour never improves as the grade gets worse: for [x <= y] the
    colour of [x] is at most as bad as the colour of [y]. *)
Theorem getGradeColor_monotone (x y : number)
    (Hxy : leb x y = true) :
  (severity (getGradeColor x) ≤ severity (getGradeColor y))%nat.
Proof.
  unfold getGradeColor.
  pose proof (leb_trans x y (num (3 # 2)) Hxy) as H1.
  pose proof (leb_trans x y (num (5 # 2)) Hxy) as H2.
  pose proof (leb_trans x y (num (7 # 2)) Hxy) as H3.
  destruct (leb y (num (3 # 2))); [rewrite H1 by done; vm_compute; lia|].
  destruct (leb y (num (5 # 2))).
  { rewrite H2 by done. destruct (leb x (num (3 # 2))); vm_compute; lia. }
  destruct (leb y (num (7 # 2))).
  { rewrite H3 by done.
    destruct (leb x (num (3 # 2))), (leb x (num (5 # 2))); vm_compute; lia. }
  destruct (leb x (num (3 # 2))), (leb x (num (5 # 2))), (leb x (num (7 # 2)));
    vm_compute; lia.
Qed.
End Storage.

Arguments browser {Cloud} w.
Arguments quotaExceeded {Cloud} w t.
Arguments localStorage {Cloud} w.
Arguments events {Cloud} w.
Arguments cloud {Cloud} w.
Arguments withItem {Cloud} t w.
Arguments withEvent {Cloud} e w.
Arguments withCloud {Cloud} c w.
Arguments writable {Cloud} w t.
Arguments storedSubjects {Cloud} w.

(** ** Concrete runs *)

(** A cloud peer without state: [offlineFetch] and [offlinePush] throw,
    [readyFetch] returns [cloudCollection]. *)
Definition offlineFetch : string → unit → fetchResult * unit :=
  λ _ c, (FetchThrows, c).

Definition offlinePush : string → list Subject → unit → pushResult * unit :=
  λ _ _ c, (PushThrows, c).

Definition cloudCollection : list Subject :=
  [ mkSubject "physics" "Physics" [] None ].

Definition readyFetch : string → unit → fetchResult * unit :=
  λ _ c, (FetchArray cloudCollection, c).

(** A browser tab with [item] under the storage key; every write throws
    when [full]. *)
Definition tab (full : bool) (item : option text) : World unit :=
  mkWorld unit true (λ _, full) item [] tt.

(** A collection stored before grades had weights. *)
Definition legacyCollection : list Subject :=
  [ mkSubject "math" "Mathematics"
      [ mkGrade (num 2) "Test" None "2024-01-10";
        mkGrade (num 4) "Other" None "2024-01-11" ] None ].

(** A collection with its weights. *)
Definition mathCollection : list Subject :=
  [ mkSubject "math" "Mathematics"
      [ mkGrade (num 2) "Test" (Some two) "2024-01-10";
        mkGrade (num 4) "Other" (Some one) "2024-01-11" ] None ].

(** C2. The claim: a read whose migration changes the serialized
    collection saves the migrated collection.  [localStorage] holds a
    collection without weights; its migration serializes to another text;
    the read returns the migration and leaves the world as it was, the
    old text in [localStorage] and no event dispatched: it does not
    save. *)
Theorem load_leaves_legacy_text :
  JSON_stringify (migrationPass legacyCollection) ≠ JSON_stringify legacyCollection
  ∧ getSubjectsFromStorage unit false offlineFetch offlinePush None None
      (tab false (Some (JSON_stringify legacyCollection)))
    = (Ret (migrationPass legacyCollection),
       tab false (Some (JSON_stringify legacyCollection))).
Proof.
  split.
  - intros E. vm_compute in E. discriminate E.
  - by apply load_stored.
Qed.

(** C3, as stated, fails: the cloud guard is open and the fetch returns a
    non-empty array, but the write-through throws, and the read returns
    the local collection, with [localStorage] as it was. *)
Lemma load_cloud_full_storage :
  cloudGuard true (Some "u1") (Some true) = Some "u1"
  ∧ readyFetch "u1" tt = (FetchArray cloudCollection, tt)
  ∧ cloudCollection ≠ []
  ∧ getSubjectsFromStorage unit true readyFetch offlinePush (Some "u1") (Some true)
      (tab true (Some (JSON_stringify mathCollection)))
    = (Ret (migrationPass mathCollection),
       tab true (Some (JSON_stringify mathCollection)))
  ∧ migrationPass mathCollection ≠ cloudCollection.
Proof.
  split; [reflexivity|]. split; [reflexivity|]. split; [discriminate|].
  split; [vm_compute; reflexivity|].
  intros E. vm_compute in E. discriminate E.
Qed.

Lemma load_cloud_witness :
  cloudGuard true (Some "u1") (Some true) = Some "u1"
  ∧ readyFetch "u1" (cloud (tab false None)) = (FetchArray cloudCollection, tt)
  ∧ getSubjectsFromStorage unit true readyFetch offlinePush (Some "u1") (Some true)
      (tab false None)
    = (Ret cloudCollection,
       withItem (JSON_stringify cloudCollection) (withCloud tt (tab false None))).
Proof.
  split; [reflexivity|]. split; [reflexivity|].
  apply (proj1 (load_cloud unit true readyFetch offlinePush (Some "u1") (Some true)
                  (tab false None) "u1" (FetchArray cloudCollection) tt
                  eq_refl eq_refl) cloudCollection);
    [reflexivity | discriminate | reflexivity].
Defined.

(** C5, as stated, fails: position 5 of a subject with two grades is
    absent, and [deleteGradeFromSubject] returns [true]. *)
Lemma deleteGrade_absent_index_succeeds :
  (deleteGradeFromSubject unit false offlineFetch offlinePush "math" 5 None None
     (tab false (Some (JSON_stringify mathCollection)))).1 = Ret true
  ∧ (deleteGradeFromSubject unit false offlineFetch offlinePush "math" 5 None None
       (tab false (Some (JSON_stringify mathCollection)))).1 ≠ Ret false.
Proof.
  assert (H : (deleteGradeFromSubject unit false offlineFetch offlinePush "math" 5
                 None None (tab false (Some (JSON_stringify mathCollection)))).1
              = Ret true) by (vm_compute; reflexivity).
  split; [exact H|]. rewrite H. discriminate.
Qed.

Lemma located_math :
  located "math" (migrationPass mathCollection) 0
    (mkSubject "math" "Mathematics"
       [ mkGrade (num 2) "Test" (Some two) "2024-01-10";
         mkGrade (num 4) "Other" (Some one) "2024-01-11" ]
       (Some (calculateAverage
                [ mkGrade (num 2) "Test" (Some two) "2024-01-10";
                  mkGrade (num 4) "Other" (Some one) "2024-01-11" ]))).
Proof.
  split; [reflexivity|]. split; [reflexivity|]. intros j y _ Hj. lia.
Defined.

Lemma load_mathCollection :
  getSubjectsFromStorage unit false offlineFetch offlinePush None None
    (tab false (Some (JSON_stringify mathCollection)))
  = (Ret (migrationPass mathCollection),
     tab false (Some (JSON_stringify mathCollection))).
Proof. by apply load_stored. Defined.

Lemma deleteGrade_out_of_range_witness :
  (5 < 0 ∨ Z.of_nat 2 ≤ 5)%Z
  ∧ (deleteGradeFromSubject unit false offlineFetch offlinePush "math" 5 None None
       (tab false (Some (JSON_stringify mathCollection)))).1 = Ret true.
Proof.
  split; [right; lia|].
  apply (deleteGrade_out_of_range unit false offlineFetch offlinePush "math" 5 None None
           _ _ _ 0 _ load_mathCollection located_math);
    [discriminate | right; simpl; lia | reflexivity].
Defined.

Lemma deleteGrade_spec_witness :
  deleteGradeFromSubject unit false offlineFetch offlinePush "history" 0 None None
    (tab false (Some (JSON_stringify mathCollection)))
  = (Ret false, tab false (Some (JSON_stringify mathCollection))).
Proof.
  apply (deleteGrade_spec unit false offlineFetch offlinePush "history" 0 None None
           _ _ _ load_mathCollection).
  repeat constructor. discriminate.
Defined.

Lemma addGrade_unknown_subject_witness :
  Forall (λ x, id x ≠ "history") (migrationPass mathCollection)
  ∧ addGradeToSubject unit false offlineFetch offlinePush "history"
      (mkGrade (num 3) "Test" (Some two) "2024-02-01") None None
      (tab false (Some (JSON_stringify mathCollection)))
    = (Ret false, tab false (Some (JSON_stringify mathCollection))).
Proof.
  assert (H : Forall (λ x, id x ≠ "history") (migrationPass mathCollection))
    by (repeat constructor; discriminate).
  split; [exact H|].
  apply (addGrade_unknown_subject unit false offlineFetch offlinePush "history"
           (mkGrade (num 3) "Test" (Some two) "2024-02-01") None None
           _ _ _ load_mathCollection H).
Defined.

(** C8, as stated, fails: the empty collection is saved, and the read
    that follows returns the five default subjects. *)
Lemma save_empty_then_load :
  saveSubjectsToStorage unit false offlinePush [] None None (tab false None)
  = (Ret true, withEvent subjectsUpdated (tab false (Some (JSON_stringify []))))
  ∧ (getSubjectsFromStorage unit false offlineFetch offlinePush None None
       (withEvent subjectsUpdated (tab false (Some (JSON_stringify []))))).1
    = Ret initializeSubjects
  ∧ initializeSubjects ≠ [].
Proof. split; [reflexivity|]. split; [reflexivity|]. discriminate. Qed.

Lemma finite_legacyCollection : Forall finiteSubject legacyCollection.
Proof.
  repeat constructor; simpl; try done; intros ? [=].
Defined.

Lemma save_then_load_witness :
  legacyCollection ≠ []
  ∧ Forall finiteSubject legacyCollection
  ∧ saveSubjectsToStorage unit false offlinePush legacyCollection None None (tab false None)
    = (Ret true,
       withEvent subjectsUpdated (tab false (Some (JSON_stringify legacyCollection))))
  ∧ (getSubjectsFromStorage unit false offlineFetch offlinePush None None
       (withEvent subjectsUpdated
          (tab false (Some (JSON_stringify legacyCollection))))).1
    = Ret (map migrateSubject legacyCollection).
Proof.
  split; [discriminate|]. split; [exact finite_legacyCollection|].
  split; [reflexivity|].
  apply (save_then_load unit false offlineFetch offlinePush legacyCollection
           None None None None (tab false None) _ eq_refl);
    [discriminate | exact finite_legacyCollection | reflexivity].
Defined.

Lemma calculateAverage_falsy_weight_witness :
  truthy zero = false
  ∧ calculateAverage
      ([ mkGrade (num 4) "Other" (Some one) "2024-01-11" ]
       ++ mkGrade (num 2) "Other" (Some zero) "2024-01-10" :: [])
    = calculateAverage
        ([ mkGrade (num 4) "Other" (Some one) "2024-01-11" ]
         ++ mkGrade (num 2) "Other" (Some one) "2024-01-10" :: []).
Proof.
  split; [vm_compute; reflexivity|].
  apply (calculateAverage_falsy_weight (num 2) "Other" "2024-01-10" zero
           (mkAcc zero zero) _ []).
  vm_compute; reflexivity.
Defined.

(** ** Runs of the other operations *)

(** The string methods on ASCII text, to run [addNewSubject]. *)
Definition isSpace (c : Ascii.ascii) : bool :=
  let n := Ascii.nat_of_ascii c in
  (n =? 32)%nat || ((9 <=? n)%nat && (n <=? 13)%nat).

Definition lowerAscii (c : Ascii.ascii) : Ascii.ascii :=
  let n := Ascii.nat_of_ascii c in
  if (65 <=? n)%nat && (n <=? 90)%nat then Ascii.ascii_of_nat (n + 32) else c.

Fixpoint asciiToLowerCase (s : string) : string :=
  match s with
  | EmptyString => EmptyString
  | String c s' => String (lowerAscii c) (asciiToLowerCase s')
  end.

Fixpoint replaceRuns (inRun : bool) (s : string) : string :=
  match s with
  | EmptyString => EmptyString
  | String c s' =>
      if isSpace c
      then if inRun then replaceRuns true s' else String (Ascii.ascii_of_nat 45) (replaceRuns true s')
      else String c (replaceRuns false s')
  end.

Definition asciiReplaceWhitespace (s : string) : string := replaceRuns false s.

Fixpoint trimStart (s : string) : string :=
  match s with
  | String c s' => if isSpace c then trimStart s' else s
  | EmptyString => EmptyString
  end.

Fixpoint trimEnd (s : string) : string :=
  match s with
  | EmptyString => EmptyString
  | String c s' =>
      let t := trimEnd s' in
      if isSpace c && String.eqb t EmptyString then EmptyString else String c t
  end.

Definition asciiTrim (s : string) : string := trimEnd (trimStart s).

Example subjectIdOf_physics_lab :
  subjectIdOf asciiToLowerCase asciiReplaceWhitespace "Physics  Lab" = "physics-lab".
Proof. reflexivity. Qed.

(** The tab that holds [mathCollection], and the operations in it, the
    cloud features off. *)
Definition mathTab : World unit := tab false (Some (JSON_stringify mathCollection)).

Definition newSubject (name : string) : World unit → outcome bool * World unit :=
  addNewSubject unit false offlineFetch offlinePush
    asciiTrim asciiToLowerCase asciiReplaceWhitespace name None None.

Definition newGrade : Grade := mkGrade (num 3) "Test" None "2024-02-01".

Definition addToMath : World unit → outcome bool * World unit :=
  addGradeToSubject unit false offlineFetch offlinePush "math" newGrade None None.


Lemma calculateAverage_hundredths_witness :
  calculateAverage (grades (hd (mkSubject "x" "x" [] None) mathCollection))
  = Fin (Q2Qc (267 # 100))
  ∧ ∃ n : Z, Q2Qc (267 # 100) = Q2Qc (n # 100).
Proof.
  assert (H : calculateAverage (grades (hd (mkSubject "x" "x" [] None) mathCollection))
              = Fin (Q2Qc (267 # 100))).
  { vm_compute. apply (f_equal Fin), Qc_is_canon. reflexivity. }
  split; [exact H|]. exact (calculateAverage_hundredths _ _ H).
Defined.


Lemma load_nonempty_witness : migrationPass mathCollection ≠ [].
Proof.
  exact (load_nonempty unit false offlineFetch offlinePush None None _ _ _
           load_mathCollection).
Defined.

Lemma load_outside_browser_witness :
  ∃ w', getSubjectsFromStorage unit true readyFetch offlinePush (Some "u1") (Some true)
          (mkWorld unit false (λ _, false) None [] tt)
        = (Ret initializeSubjects, w')
        ∧ localStorage w' = None ∧ events w' = [].
Proof.
  exact (load_outside_browser unit true readyFetch offlinePush (Some "u1") (Some true)
           (mkWorld unit false (λ _, false) None [] tt) eq_refl).
Defined.

Lemma load_settled_witness : Forall settled (migrationPass mathCollection).
Proof.
  exact (load_settled unit false offlineFetch offlinePush None None _ _ _
           eq_refl load_mathCollection).
Defined.

Lemma load_repeatable_witness :
  (getSubjectsFromStorage unit false offlineFetch offlinePush None None
     (getSubjectsFromStorage unit false offlineFetch offlinePush None None
        (tab false None)).2).1
  = (getSubjectsFromStorage unit false offlineFetch offlinePush None None
       (tab false None)).1.
Proof.
  exact (load_repeatable unit false offlineFetch offlinePush None None
           (tab false None) eq_refl).
Defined.

Lemma getSubjectById_spec_witness :
  cloud mathTab = cloud mathTab
  ∧ (Forall (λ s, id s ≠ "math") (migrationPass mathCollection)
     ∧ getSubjectById unit false offlineFetch offlinePush "math" mathTab
       = (Ret None, mathTab)
     ∨ ∃ i sub, located "math" (migrationPass mathCollection) i sub
                ∧ getSubjectById unit false offlineFetch offlinePush "math" mathTab
                  = (Ret (Some sub), mathTab)).
Proof.
  exact (getSubjectById_spec unit false offlineFetch offlinePush "math" _ _ _
           load_mathCollection).
Defined.

Lemma clear_then_load_witness :
  (clearAllGradesData unit mathTab).1 = Ret ().
Proof.
  destruct (proj2 (clear_then_load unit false offlineFetch offlinePush None None
                     mathTab eq_refl) eq_refl) as (w0 & H & _).
  by rewrite H.
Defined.

Lemma addGrade_spec_witness :
  (addToMath mathTab).1 = Ret true.
Proof.
  destruct (addGrade_spec unit false offlineFetch offlinePush "math" newGrade
              None None _ _ _ 0 _ load_mathCollection located_math)
    as (_ & _ & _ & _ & H & _).
  apply H. reflexivity.
Defined.

Lemma addToMath_returns : addToMath mathTab = (Ret true, (addToMath mathTab).2).
Proof.
  assert (H : (addToMath mathTab).1 = Ret true) by (vm_compute; reflexivity).
  rewrite <- H. apply surjective_pairing.
Defined.


Lemma addGrade_then_deleteGrade_witness :
  deleteGradeFromSubject unit false offlineFetch offlinePush "math" 2 None None
    (addToMath mathTab).2
  = saveSubjectsToStorage unit false offlinePush
      (map migrateSubject (migrationPass mathCollection)) None None
      (addToMath mathTab).2.
Proof.
  apply (addGrade_then_deleteGrade unit false offlineFetch offlinePush
           "math" newGrade None None _ _ _ _ 0 _
           eq_refl load_mathCollection located_math);
    [discriminate | exact addToMath_returns].
Defined.

Lemma ensureAllSubjectsExist_unique_witness :
  NoDup (map id (ensureAllSubjectsExist mathCollection)).
Proof.
  apply ensureAllSubjectsExist_unique.
  apply (bool_decide_unpack (NoDup (map id mathCollection))).
  vm_compute. exact I.
Defined.

Lemma addNewSubject_refused_witness :
  newSubject "   " mathTab = (Ret false, mathTab)
  ∧ newSubject "Math" mathTab = (Ret false, mathTab).
Proof.
  destruct (addNewSubject_refused unit false offlineFetch offlinePush
              asciiTrim asciiToLowerCase asciiReplaceWhitespace
              "   " None None _ _ _ load_mathCollection) as [Hblank _].
  destruct (addNewSubject_refused unit false offlineFetch offlinePush
              asciiTrim asciiToLowerCase asciiReplaceWhitespace
              "Math" None None _ _ _ load_mathCollection) as [_ Hdup].
  split.
  - apply Hblank. reflexivity.
  - apply Hdup; [discriminate|]. apply Exists_cons_hd. reflexivity.
Defined.

Lemma addNewSubject_fresh_witness :
  (newSubject "Physics  Lab" mathTab).1 = Ret true.
Proof.
  assert (Hfresh : Forall (λ s, id s ≠ "physics-lab") (migrationPass mathCollection))
    by (repeat constructor; discriminate).
  assert (Hname : asciiTrim "Physics  Lab" ≠ EmptyString) by discriminate.
  destruct (addNewSubject_fresh unit false offlineFetch offlinePush
              asciiTrim asciiToLowerCase asciiReplaceWhitespace
              "Physics  Lab" None None _ _ _
              Hname load_mathCollection Hfresh)
    as (_ & H & _).
  apply H. reflexivity.
Defined.

Lemma newSubject_returns :
  newSubject "Physics  Lab" mathTab
  = (Ret true, (newSubject "Physics  Lab" mathTab).2).
Proof.
  assert (H : (newSubject "Physics  Lab" mathTab).1 = Ret true)
    by (vm_compute; reflexivity).
  rewrite <- H. apply surjective_pairing.
Defined.

Lemma addNewSubject_twice_witness :
  newSubject "Physics  Lab" (newSubject "Physics  Lab" mathTab).2
  = (Ret false, (newSubject "Physics  Lab" mathTab).2).
Proof.
  exact (addNewSubject_twice unit false offlineFetch offlinePush
           asciiTrim asciiToLowerCase asciiReplaceWhitespace
           "Physics  Lab" None None _ _ eq_refl newSubject_returns).
Defined.

Lemma getGradeColor_monotone_witness :
  leb (num 2) (num 3) = true
  ∧ (severity (getGradeColor (num 2)) ≤ severity (getGradeColor (num 3)))%nat.
Proof.
  split; [by vm_compute|].
  apply getGradeColor_monotone. by vm_compute.
Defined.
